(** * A coaster REST service: model of [main.go] and its properties

    The program is a small HTTP server: an in-memory store of coasters
    behind [GET /coasters], [POST /coasters], [GET /coasters/{id}],
    [GET /coasters/random], and a page [GET /admin] behind HTTP Basic
    authentication.

    The handlers are embedded as functions on an explicit store and an
    explicit response writer.  What the handlers ask of the Go runtime and
    of the standard library (the clock, the order in which [range] walks a
    map, the random source, the outcome of reading and scanning the request
    body) is an explicit input.  The mutex of [coasterHandlers] has no
    counterpart: the model runs one request at a time. *)

From Stdlib Require Import ZArith Bool String Ascii Decimal DecimalString DecimalPos DecimalZ Lia.
From stdpp Require Import gmap strings list fin_maps.

Local Open Scope Z_scope.
Local Open Scope string_scope.
Local Open Scope list_scope.

(** ** Library functions used by the handlers *)

(** [strings.Split(s, sep)] for a separator of one byte, the only use in
    the program ([strings.Split(r.URL.String(), "/")]).  The result is never
    empty: a string without the separator is returned as its only piece. *)
Fixpoint Split (s : string) (sep : ascii) : list string :=
  match s with
  | EmptyString => [EmptyString]
  | String a rest =>
      if Ascii.eqb a sep then EmptyString :: Split rest sep
      else match Split rest sep with
           | piece :: pieces => String a piece :: pieces
           | [] => [String a EmptyString]
           end
  end.

(** The verb [%d] of [fmt.Sprintf] at an integer: its decimal numeral, with
    a leading [-] for a negative one. *)
Definition FormatInt (z : Z) : string := NilZero.string_of_int (Z.to_int z).

(** [occurs a s]: the byte [a] occurs in [s]. *)
Fixpoint occurs (a : ascii) (s : string) : bool :=
  match s with
  | EmptyString => false
  | String b rest => Ascii.eqb b a || occurs a rest
  end.

(** The bytes a decimal numeral is made of. *)
Definition numeral_byte (a : ascii) : bool :=
  Ascii.eqb a "-" || (Nat.leb 48 (nat_of_ascii a) && Nat.leb (nat_of_ascii a) 57).

Fixpoint numeral (s : string) : bool :=
  match s with
  | EmptyString => true
  | String a rest => numeral_byte a && numeral rest
  end.

(** ** JSON documents

    [encoding/json] scans the whole input for syntax errors before it
    decodes anything.  The model starts from the outcome of that scan: a
    request body is either rejected with a syntax error or it is a document.
    A number keeps the distinction the decoder makes when the target is an
    [int]: a literal that is an integer numeral, or one with a fraction or an
    exponent (kept as its text). *)
Inductive number :=
  | Integer (z : Z)
  | Fractional (lit : string).

#[local] Unset Elimination Schemes.
Inductive json :=
  | JNull
  | JBool (b : bool)
  | JNumber (n : number)
  | JString (s : string)
  | JArray (items : list json)
  | JObject (members : list (string * json)).
#[local] Set Elimination Schemes.

Inductive scanned :=
  | Invalid (msg : string)
  | Document (j : json).

(** Errors a handler can meet: a failed read of the body, a syntax error of
    the body, and [*json.UnmarshalTypeError] (the JSON value met, and the
    JSON name of the struct field concerned, empty at top level). *)
Inductive error :=
  | ReadError (msg : string)
  | SyntaxError (msg : string)
  | UnmarshalTypeError (value : string) (field : string).

(** ** The coaster record (main.go, lines 23-29) *)

Record coaster := mkCoaster {
  Name : string;
  Manufactur : string;
  ID : string;
  InPark : string;
  Height : Z
}.

(** The zero value of the struct: what [var coasterBody coaster] holds. *)
Definition zero_coaster : coaster :=
  {| Name := ""; Manufactur := ""; ID := ""; InPark := ""; Height := 0 |}.

(** The fields in declaration order, and the JSON name each struct tag
    gives. *)
Inductive field := FName | FManufactur | FID | FInPark | FHeight.

Definition fields : list field := [FName; FManufactur; FID; FInPark; FHeight].

Definition tag (f : field) : string :=
  match f with
  | FName => "name"
  | FManufactur => "manufactur"
  | FID => "id"
  | FInPark => "inPark"
  | FHeight => "height"
  end.

(** [json.Marshal] of a coaster: an object with one member per field, in
    declaration order, under the tag's name.  It cannot fail for a struct of
    strings and an int; the result type keeps the error the caller tests. *)
Definition field_value (c : coaster) (f : field) : json :=
  match f with
  | FName => JString (Name c)
  | FManufactur => JString (Manufactur c)
  | FID => JString (ID c)
  | FInPark => JString (InPark c)
  | FHeight => JNumber (Integer (Height c))
  end.

Definition encode (c : coaster) : json :=
  JObject (map (fun f => (tag f, field_value c f)) fields).

Definition Marshal (c : coaster) : json + error := inl (encode c).

Definition MarshalAll (cs : list coaster) : json + error :=
  inl (JArray (map encode cs)).

(** The keys of an object, in order (empty for any other document). *)
Definition keys (j : json) : list string :=
  match j with
  | JObject members => map fst members
  | _ => []
  end.

(** *** Decoding into a coaster *)

(** A key of the input selects the field whose name it equals, or else the
    field whose name it equals up to case folding.  Folding maps an ASCII
    letter to its capital; the only characters outside ASCII that fold to an
    ASCII letter are the Kelvin sign (bytes E2 84 AA, to K) and the long s
    (bytes C5 BF, to S). *)
Definition upper (a : ascii) : ascii :=
  let n := nat_of_ascii a in
  if Nat.leb 97 n && Nat.leb n 122 then ascii_of_nat (n - 32) else a.

Fixpoint foldName (s : string) : string :=
  match s with
  | EmptyString => EmptyString
  | String a rest =>
      match rest with
      | EmptyString => String (upper a) EmptyString
      | String b rest1 =>
          if Ascii.eqb a "197" && Ascii.eqb b "191"
          then String "S" (foldName rest1)
          else match rest1 with
               | String c rest2 =>
                   if Ascii.eqb a "226" && Ascii.eqb b "132" && Ascii.eqb c "170"
                   then String "K" (foldName rest2)
                   else String (upper a) (foldName rest)
               | EmptyString => String (upper a) (foldName rest)
               end
      end
  end.

Definition find_field (key : string) : option field :=
  match List.find (fun f => String.eqb (tag f) key) fields with
  | Some f => Some f
  | None => List.find (fun f => String.eqb (foldName (tag f)) (foldName key)) fields
  end.

(** The name the decoder gives a JSON value in a type error. *)
Definition describe (j : json) : string :=
  match j with
  | JNull => "null"
  | JBool _ => "bool"
  | JNumber _ => "number"
  | JString _ => "string"
  | JArray _ => "array"
  | JObject _ => "object"
  end.

(** [int] is 64 bits wide. *)
Definition fits_int (z : Z) : bool := Z.leb (- 2 ^ 63) z && Z.ltb z (2 ^ 63).

(** The decoder's state: the struct being filled and the first type error
    met ([saveError] keeps the earliest one). *)
Definition decoding : Type := coaster * option error.

Definition saveError (e : error) (d : decoding) : decoding :=
  match snd d with
  | Some _ => d
  | None => (fst d, Some e)
  end.

Definition set_string (f : field) (s : string) (c : coaster) : coaster :=
  match f with
  | FName => {| Name := s; Manufactur := Manufactur c; ID := ID c;
                InPark := InPark c; Height := Height c |}
  | FManufactur => {| Name := Name c; Manufactur := s; ID := ID c;
                      InPark := InPark c; Height := Height c |}
  | FID => {| Name := Name c; Manufactur := Manufactur c; ID := s;
              InPark := InPark c; Height := Height c |}
  | FInPark => {| Name := Name c; Manufactur := Manufactur c; ID := ID c;
                  InPark := s; Height := Height c |}
  | FHeight => c
  end.

Definition set_Height (z : Z) (c : coaster) : coaster :=
  {| Name := Name c; Manufactur := Manufactur c; ID := ID c;
     InPark := InPark c; Height := z |}.

(** One member's value stored into its field.  [null] leaves the field as
    it is; a value of the wrong kind, or a number that is not an integer of
    64 bits, is skipped and recorded as a type error. *)
Definition store_field (f : field) (v : json) (d : decoding) : decoding :=
  match v with
  | JNull => d
  | _ =>
      match f with
      | FHeight =>
          match v with
          | JNumber (Integer z) =>
              if fits_int z then (set_Height z (fst d), snd d)
              else saveError (UnmarshalTypeError ("number " +:+ FormatInt z) (tag f)) d
          | JNumber (Fractional lit) =>
              saveError (UnmarshalTypeError ("number " +:+ lit) (tag f)) d
          | _ => saveError (UnmarshalTypeError (describe v) (tag f)) d
          end
      | _ =>
          match v with
          | JString s => (set_string f s (fst d), snd d)
          | _ => saveError (UnmarshalTypeError (describe v) (tag f)) d
          end
      end
  end.

(** The members of an object, in order; a key that selects no field is
    skipped; a later member for the same field overrides an earlier one. *)
Fixpoint decode_members (members : list (string * json)) (d : decoding) : decoding :=
  match members with
  | [] => d
  | (key, v) :: rest =>
      match find_field key with
      | Some f => decode_members rest (store_field f v d)
      | None => decode_members rest d
      end
  end.

(** A document decoded into a struct: an object goes member by member,
    [null] changes nothing, anything else is a type error. *)
Definition decode (j : json) (c : coaster) : decoding :=
  match j with
  | JObject members => decode_members members (c, None)
  | JNull => (c, None)
  | _ => (c, Some (UnmarshalTypeError (describe j) ""))
  end.

(** [json.Unmarshal(bodyBytes, &coasterBody)]: the struct after the call and
    the error returned.  A body with a syntax error leaves the struct
    untouched. *)
Definition Unmarshal (body : scanned) (c : coaster) : decoding :=
  match body with
  | Invalid msg => (c, Some (SyntaxError msg))
  | Document j => decode j c
  end.

(** ** HTTP: headers, requests and the response writer *)

(** A header is a list of lines, kept in the order they were added; a name
    is stored in its canonical form ([textproto.CanonicalMIMEHeaderKey]:
    first letter and every letter after a hyphen in upper case, the others
    in lower case; a name with a byte that no header name can have is left as
    it is). *)
Definition Header : Type := list (string * string).

Definition lower (a : ascii) : ascii :=
  let n := nat_of_ascii a in
  if Nat.leb 65 n && Nat.leb n 90 then ascii_of_nat (n + 32) else a.

Definition validHeaderFieldByte (a : ascii) : bool :=
  let n := nat_of_ascii a in
  (Nat.leb 97 n && Nat.leb n 122) || (Nat.leb 65 n && Nat.leb n 90)
  || (Nat.leb 48 n && Nat.leb n 57) || occurs a "!#$%&'*+-.^_`|~".

Fixpoint all_bytes (p : ascii -> bool) (s : string) : bool :=
  match s with
  | EmptyString => true
  | String a rest => p a && all_bytes p rest
  end.

Fixpoint canonical (up : bool) (s : string) : string :=
  match s with
  | EmptyString => EmptyString
  | String a rest =>
      let c := if up then upper a else lower a in
      String c (canonical (Ascii.eqb c "-") rest)
  end.

Definition CanonicalMIMEHeaderKey (s : string) : string :=
  if all_bytes validHeaderFieldByte s then canonical true s else s.

(** [Header.Add] appends a line; [Header.Get] returns the first value under
    the name, and the empty string when there is none. *)
Definition Add (key value : string) (h : Header) : Header :=
  h ++ [(CanonicalMIMEHeaderKey key, value)].

Definition Get (h : Header) (key : string) : string :=
  match List.find (fun kv => String.eqb (fst kv) (CanonicalMIMEHeaderKey key)) h with
  | Some kv => snd kv
  | None => ""
  end.

(** The request URL of a server request: a path (in its escaped form) and
    a query.  [URL.String] puts them together again. *)
Record URL := mkURL {
  Path : string;
  ForceQuery : bool;
  RawQuery : string
}.

Definition URL_String (u : URL) : string :=
  if ForceQuery u || negb (String.eqb (RawQuery u) "")
  then Path u +:+ "?" +:+ RawQuery u
  else Path u.

(** What a handler reads of a request: the method, the URL, the header, the
    outcome of [ioutil.ReadAll(r.Body)] (the scan of the bytes read, and the
    error of the read if any), and the credentials of an [Authorization:
    Basic] line if there is a well-formed one. *)
Record Request := mkRequest {
  Method : string;
  ReqURL : URL;
  ReqHeader : Header;
  Body : scanned;
  BodyErr : option error;
  Credentials : option (string * string)
}.

(** [r.BasicAuth()]: user name, password, and whether there were any. *)
Definition BasicAuth (r : Request) : string * string * bool :=
  match Credentials r with
  | Some (username, password) => (username, password, true)
  | None => ("", "", false)
  end.

(** What is written to the body: plain text, the text of an error, the
    bytes of a JSON document, or nothing (a nil slice). *)
Inductive bytes :=
  | Text (s : string)
  | ErrorText (e : error)
  | JsonText (j : json)
  | Nil.

(** [http.ResponseWriter].  The status line and the header go out once: at
    the first [WriteHeader], or at the first [Write] (with status 200) when
    there was none before.  A later [WriteHeader] is ignored, and so is a
    change of the header map made after that point. *)
Record ResponseWriter := mkResponseWriter {
  header : Header;
  wroteHeader : bool;
  status : nat;
  sentHeader : Header;
  body : list bytes
}.

Definition StatusOK : nat := 200.
Definition StatusCreated : nat := 201.
Definition StatusFound : nat := 302.
Definition StatusBadRequest : nat := 400.
Definition StatusUnauthorized : nat := 401.
Definition StatusNotFound : nat := 404.
Definition StatusMethodNotAllowed : nat := 405.
Definition StatusUnsupportedMediaType : nat := 415.
Definition StatusInternalServerError : nat := 500.

(** The writer a handler is called with. *)
Definition fresh : ResponseWriter :=
  {| header := []; wroteHeader := false; status := 0%nat; sentHeader := []; body := [] |}.

Definition WriteHeader (code : nat) (w : ResponseWriter) : ResponseWriter :=
  if wroteHeader w then w
  else {| header := header w; wroteHeader := true; status := code;
          sentHeader := header w; body := body w |}.

Definition Write (b : bytes) (w : ResponseWriter) : ResponseWriter :=
  let w' := if wroteHeader w then w else WriteHeader StatusOK w in
  {| header := header w'; wroteHeader := wroteHeader w'; status := status w';
     sentHeader := sentHeader w';
     body := match b with Nil => body w' | _ => body w' ++ [b] end |}.

Definition HeaderAdd (key value : string) (w : ResponseWriter) : ResponseWriter :=
  {| header := Add key value (header w); wroteHeader := wroteHeader w;
     status := status w; sentHeader := sentHeader w; body := body w |}.

(** The response the client gets once the handler has returned: a handler
    that wrote nothing answers 200 with the header as it stands and no
    body. *)
Definition finish (w : ResponseWriter) : ResponseWriter :=
  if wroteHeader w then w else WriteHeader StatusOK w.

Definition response_status (w : ResponseWriter) : nat := status (finish w).
Definition response_header (w : ResponseWriter) : Header := sentHeader (finish w).
Definition response_body (w : ResponseWriter) : list bytes := body (finish w).

(** Calls on the writer read in program order. *)
Notation "w |> f" := (f w) (at level 45, left associativity, only parsing).

(** ** What the Go runtime decides

    One request sees one reading of the wall clock ([time.Now().UnixNano()]),
    one order in which [range] walks the map (a rearrangement of its
    entries, not specified by the language and different from one loop to the
    next), and one value of the random source. *)
Record runtime := mkRuntime {
  UnixNano : Z;
  rangeOrder : list (string * coaster) -> list (string * coaster);
  randSource : Z
}.

(** A runtime only rearranges the entries of a map. *)
Definition rearranges (rt : runtime) : Prop :=
  forall entries, rangeOrder rt entries ≡ₚ entries.

(** [rand.Intn(n)]: some number in [0, n); it panics when [n <= 0]. *)
Definition Intn (rt : runtime) (n : Z) : option Z :=
  if Z.leb n 0 then None else Some (randSource rt mod n).

(** Go's [len] and indexing of a slice; an index out of range panics. *)
Definition len {A} (l : list A) : Z := Z.of_nat (length l).

Definition index {A} (l : list A) (i : Z) : option A :=
  if Z.ltb i 0 then None else l !! Z.to_nat i.

(** The loop [i := 0; for ... range ... { slice[i] = x; i++ }] over the
    elements the range yields. *)
Fixpoint collect {A} (slice : list A) (i : nat) (yielded : list A) : option (list A) :=
  match yielded with
  | [] => Some slice
  | x :: rest =>
      if decide (i < length slice)%nat
      then collect (<[i:=x]> slice) (S i) rest
      else None
  end.

(** ** The coaster handlers (main.go, lines 31-159) *)

Record coasterHandlers := mkCoasterHandlers {
  store : gmap string coaster
}.

Definition newCoasterHandlers : coasterHandlers := {| store := ∅ |}.

(** [for k, v := range h.store]: the entries in the order of this run. *)
Definition range (rt : runtime) (h : coasterHandlers) : list (string * coaster) :=
  rangeOrder rt (map_to_list (store h)).

Definition set_ID (id : string) (c : coaster) : coaster :=
  {| Name := Name c; Manufactur := Manufactur c; ID := id;
     InPark := InPark c; Height := Height c |}.

(** The identifier a creation gets:
    [fmt.Sprintf("%d", time.Now().UnixNano())]. *)
Definition newID (rt : runtime) : string := FormatInt (UnixNano rt).

(** [post] (lines 49-73).  None of the three error branches returns: each
    writes its response and falls through to the next statement. *)
Definition post (rt : runtime) (h : coasterHandlers) (w : ResponseWriter) (r : Request)
  : coasterHandlers * ResponseWriter :=
  let w :=
    match BodyErr r with
    | Some err => w |> WriteHeader StatusInternalServerError |> Write (ErrorText err)
    | None => w
    end in
  let ct := Get (ReqHeader r) "content-type" in
  let w :=
    if negb (String.eqb ct "application/json")
    then w |> WriteHeader StatusUnsupportedMediaType
           |> Write (Text ("Need type of application/json but got '" +:+ ct +:+ "'"))
    else w in
  let '(coasterBody, err) := Unmarshal (Body r) zero_coaster in
  let w :=
    match err with
    | Some err => w |> WriteHeader StatusBadRequest |> Write (ErrorText err)
    | None => w
    end in
  let coasterBody := set_ID (newID rt) coasterBody in
  ({| store := <[ID coasterBody := coasterBody]> (store h) |}, w).

(** [getRandomCoaster] (lines 75-100).  A result [None] of a handler stands
    for a panic (an index out of range, [rand.Intn] at a bound that is not
    positive).  Seeding the generator with the clock and drawing from it is
    the one value [randSource] of the runtime. *)
Definition getRandomCoaster (rt : runtime) (h : coasterHandlers) (w : ResponseWriter)
    (r : Request) : option ResponseWriter :=
  let ids := replicate (size (store h)) "" in
  ids ← collect ids 0%nat (map fst (range rt h));
  if Z.eqb (len ids) 0 then
    Some (w |> WriteHeader StatusNotFound)
  else
    target ← (if Z.eqb (len ids) 1 then index ids 0
              else i ← Intn rt (len ids - 1); index ids i);
    Some (w |> HeaderAdd "content-type" "application/json"
            |> HeaderAdd "location" ("/coasters/" +:+ target)
            |> WriteHeader StatusFound).

(** [getCoaster] (lines 102-136). *)
Definition getCoaster (rt : runtime) (h : coasterHandlers) (w : ResponseWriter)
    (r : Request) : option ResponseWriter :=
  let paths := Split (URL_String (ReqURL r)) "/" in
  if negb (Z.eqb (len paths) 3) then
    Some (w |> WriteHeader StatusNotFound
            |> Write (Text "The url that you request is not found"))
  else
    id ← index paths 2;
    if String.eqb id "random" then getRandomCoaster rt h w r
    else
      match store h !! id with
      | None =>
          Some (w |> WriteHeader StatusNotFound
                  |> Write (Text ("No content found for ID, '" +:+ id +:+ "'")))
      | Some dataCoaster =>
          match Marshal dataCoaster with
          | inr err =>
              Some (w |> WriteHeader StatusInternalServerError |> Write (ErrorText err))
          | inl jsonBytes =>
              Some (w |> HeaderAdd "content-type" "application/json"
                      |> WriteHeader StatusOK
                      |> Write (JsonText jsonBytes))
          end
      end.

(** [get] (lines 138-155). *)
Definition get (rt : runtime) (h : coasterHandlers) (w : ResponseWriter)
    (r : Request) : option ResponseWriter :=
  let coasters := replicate (size (store h)) zero_coaster in
  coasters ← collect coasters 0%nat (map snd (range rt h));
  match MarshalAll coasters with
  | inr err =>
      Some (w |> WriteHeader StatusInternalServerError |> Write (ErrorText err)
              |> HeaderAdd "content-type" "application/json"
              |> WriteHeader StatusOK
              |> Write Nil)
  | inl jsonBytes =>
      Some (w |> HeaderAdd "content-type" "application/json"
              |> WriteHeader StatusOK
              |> Write (JsonText jsonBytes))
  end.

(** [coasters] (lines 36-48): the handler of the path [/coasters]. *)
Definition coasters (rt : runtime) (h : coasterHandlers) (w : ResponseWriter)
    (r : Request) : option (coasterHandlers * ResponseWriter) :=
  if String.eqb (Method r) "GET" then
    w' ← get rt h w r; Some (h, w')
  else if String.eqb (Method r) "POST" then
    Some (post rt h w r)
  else
    Some (h, w |> WriteHeader StatusMethodNotAllowed
               |> Write (Text "Method not allowed")).

(** The states of the store a running server can be in: empty at start,
    then whatever a request to [/coasters] leaves.  (The other two handlers
    never write to the store.) *)
Inductive reachable : coasterHandlers -> Prop :=
  | reachable_new : reachable newCoasterHandlers
  | reachable_coasters rt h w r h' w' :
      reachable h -> coasters rt h w r = Some (h', w') -> reachable h'.

(** ** The admin portal (main.go, lines 161-180) *)

Record adminPortal := mkAdminPortal {
  password : string
}.

(** [newAdminPortal], given the value of [ADMIN_PASSWORD] in the
    environment; [None] is the panic on an empty one. *)
Definition newAdminPortal (ADMIN_PASSWORD : string) : option adminPortal :=
  if String.eqb ADMIN_PASSWORD "" then None
  else Some {| password := ADMIN_PASSWORD |}.

Definition handler (a : adminPortal) (w : ResponseWriter) (r : Request) : ResponseWriter :=
  let '(username, password', ok) := BasicAuth r in
  if negb ok || negb (String.eqb username "admin")
     || negb (String.eqb password' (password a))
  then w |> WriteHeader StatusUnauthorized |> Write (Text "401 unauthorized")
  else w |> Write (Text "<div><h2 style='color:orange;'>Wellcome, admin</h2></div>").

(** ** Requests and runtimes used in the statements *)

(** A request with no credentials whose body was read without error. *)
Definition request (method : string) (path query : string) (hdr : Header)
    (body : scanned) : Request :=
  {| Method := method;
     ReqURL := {| Path := path; ForceQuery := false; RawQuery := query |};
     ReqHeader := hdr; Body := body; BodyErr := None; Credentials := None |}.

(** A runtime that walks a map in the order [map_to_list] lists it. *)
Definition the_range (entries : list (string * coaster)) := entries.

Definition at_time (t : Z) : runtime :=
  {| UnixNano := t; rangeOrder := the_range; randSource := 0 |}.

(** ** Vocabulary of the statements *)

(** The record a creation inserts: the body as far as it was decoded, under
    the identifier of this run. *)
Definition created (rt : runtime) (r : Request) : coaster :=
  set_ID (newID rt) (fst (Unmarshal (Body r) zero_coaster)).

(** A run of creations, one after the other. *)
Fixpoint posts (h : coasterHandlers) (run : list (runtime * Request)) : coasterHandlers :=
  match run with
  | [] => h
  | (rt, r) :: rest => posts (fst (post rt h fresh r)) rest
  end.

(** The clock readings of a run, in order. *)
Definition readings (run : list (runtime * Request)) : list Z :=
  map (fun step => UnixNano (fst step)) run.

(** The answer of the random redirect that selected [target]. *)
Definition redirect (target : string) (w : ResponseWriter) : ResponseWriter :=
  w |> HeaderAdd "content-type" "application/json"
    |> HeaderAdd "location" ("/coasters/" +:+ target)
    |> WriteHeader StatusFound.

(** The identifiers in the order this run's range yields them. *)
Definition ids_of (rt : runtime) (h : coasterHandlers) : list string :=
  map fst (range rt h).

(** The requests the portal turns away: no Basic credentials, or a user
    name other than [admin], or a password other than the configured one. *)
Definition rejected (a : adminPortal) (r : Request) : Prop :=
  Credentials r = None \/
  exists username pass,
    Credentials r = Some (username, pass) /\
    (username <> "admin" \/ pass <> password a).

(** How often the byte [a] occurs in [s]. *)
Fixpoint count_byte (a : ascii) (s : string) : nat :=
  match s with
  | EmptyString => 0%nat
  | String b rest => ((if Ascii.eqb b a then 1 else 0) + count_byte a rest)%nat
  end.

(** What the checks of [post] find wrong with a request, in the order the
    handler makes them: the status and the text each failing check writes. *)
Definition post_errors (r : Request) : list (nat * bytes) :=
  (match BodyErr r with
   | Some err => [(StatusInternalServerError, ErrorText err)]
   | None => []
   end) ++
  (if String.eqb (Get (ReqHeader r) "content-type") "application/json" then []
   else [(StatusUnsupportedMediaType,
          Text ("Need type of application/json but got '"
                +:+ Get (ReqHeader r) "content-type" +:+ "'"))]) ++
  (match snd (Unmarshal (Body r) zero_coaster) with
   | Some err => [(StatusBadRequest, ErrorText err)]
   | None => []
   end).

(** The array [GET /coasters] writes for the records [cs]. *)
Definition listing (cs : list coaster) : list bytes :=
  [JsonText (JArray (map encode cs))].

(** ** Sample data *)

Definition json_header : Header := [("Content-Type", "application/json")].

Definition taron : json :=
  JObject [("name", JString "Taron"); ("inPark", JString "Phantasialand");
           ("manufactur", JString "Intamin"); ("height", JNumber (Integer 30));
           ("id", JString "chosen-by-client")].

Definition helix : json :=
  JObject [("name", JString "Helix"); ("inPark", JString "Liseberg");
           ("manufactur", JString "Mack Rides"); ("height", JNumber (Integer 41))].

(** A well-formed body with a string where [height] wants a number. *)
Definition tall : json :=
  JObject [("name", JString "Taron"); ("height", JString "tall")].

Definition post_request (hdr : Header) (body : scanned) : Request :=
  request "POST" "/coasters" "" hdr body.

Definition get_request (path query : string) : Request :=
  request "GET" path query [] (Invalid "unexpected end of JSON input").

Definition with_credentials (c : option (string * string)) : Request :=
  {| Method := "GET";
     ReqURL := {| Path := "/admin"; ForceQuery := false; RawQuery := "" |};
     ReqHeader := []; Body := Invalid "unexpected end of JSON input";
     BodyErr := None; Credentials := c |}.

(** A clock reading: 2020-09-13 12:26:40 UTC in nanoseconds. *)
Definition noon : Z := 1600000000000000000.

(** * Properties *)

(** ** Strings *)

Lemma Split_nonempty s sep : Split s sep <> [].
Proof.
  induction s as [|a s IH]; simpl; [discriminate|].
  destruct (Ascii.eqb a sep); [discriminate|].
  destruct (Split s sep); discriminate.
Qed.

(** A string without the separator is one piece. *)
Lemma Split_whole s sep : occurs sep s = false -> Split s sep = [s].
Proof.
  induction s as [|a s IH]; simpl; [reflexivity|].
  intros H. apply orb_false_iff in H as [Ha Hs].
  rewrite Ha, (IH Hs). reflexivity.
Qed.

(** The first piece ends at the first separator. *)
Lemma Split_first p s sep :
  occurs sep p = false ->
  Split (p +:+ String sep s) sep = p :: Split s sep.
Proof.
  induction p as [|a p IH]; simpl.
  - intros _. rewrite Ascii.eqb_refl. reflexivity.
  - intros H. apply orb_false_iff in H as [Ha Hp].
    rewrite Ha, (IH Hp). reflexivity.
Qed.

(** The pieces put together again have one separator less than there are
    pieces: a string with a separator in it has at least two. *)
Lemma Split_length s sep :
  occurs sep s = true -> (2 <= length (Split s sep))%nat.
Proof.
  induction s as [|a s IH]; simpl; [discriminate|].
  destruct (Ascii.eqb a sep) eqn:Ha; simpl.
  - intros _. pose proof (Split_nonempty s sep).
    destruct (Split s sep); [congruence|simpl; lia].
  - intros Hs. specialize (IH Hs).
    destruct (Split s sep); simpl in *; lia.
Qed.

Lemma occurs_app a s t : occurs a (s +:+ t) = occurs a s || occurs a t.
Proof.
  induction s as [|b s IH]; simpl; [reflexivity|].
  rewrite IH. apply orb_assoc.
Qed.

Lemma occurs_query a s q :
  occurs a (s +:+ "?" +:+ q) = occurs a s || (Ascii.eqb "?" a || occurs a q).
Proof. rewrite occurs_app. reflexivity. Qed.

Lemma numeral_occurs a s :
  numeral s = true -> numeral_byte a = false -> occurs a s = false.
Proof.
  intros Hs Ha. induction s as [|b s IH]; simpl in *; [reflexivity|].
  apply andb_true_iff in Hs as [Hb Hs]. rewrite (IH Hs), orb_false_r.
  destruct (Ascii.eqb_spec b a) as [->|]; congruence.
Qed.

Lemma numeral_uint d : numeral (NilEmpty.string_of_uint d) = true.
Proof. induction d; simpl; auto. Qed.

Lemma FormatInt_numeral z : numeral (FormatInt z) = true.
Proof.
  unfold FormatInt. destruct (Z.to_int z) as [d|d]; simpl;
    destruct d; simpl; auto using numeral_uint.
Qed.

Lemma to_int_proper z : Z.to_int z <> Pos Decimal.Nil /\ Z.to_int z <> Neg Decimal.Nil.
Proof.
  destruct z as [|p|p]; simpl; split; try discriminate;
    intros [= H]; exact (DecimalPos.Unsigned.to_uint_nonnil p H).
Qed.

(** Two integers with the same numeral are equal. *)
Lemma FormatInt_inj a b : FormatInt a = FormatInt b -> a = b.
Proof.
  unfold FormatInt. intros H.
  apply (f_equal NilZero.int_of_string) in H.
  destruct (to_int_proper a) as [? ?], (to_int_proper b) as [? ?].
  rewrite !NilZero.isi in H by assumption.
  injection H as H. rewrite <- (DecimalZ.of_to a), <- (DecimalZ.of_to b).
  congruence.
Qed.

Lemma FormatInt_nonempty z : FormatInt z <> "".
Proof.
  unfold FormatInt. destruct (to_int_proper z) as [Hp Hn].
  destruct (Z.to_int z) as [d|d]; simpl; [|discriminate].
  destruct d; simpl; try discriminate.
Qed.

Lemma FormatInt_no_byte a z : numeral_byte a = false -> occurs a (FormatInt z) = false.
Proof. intros. apply numeral_occurs; auto using FormatInt_numeral. Qed.

Lemma FormatInt_not_random z : FormatInt z <> "random".
Proof.
  intros H. pose proof (FormatInt_numeral z) as Hn. rewrite H in Hn. discriminate.
Qed.

(** ** The fill loop *)

Lemma collect_from {A} (filled rest yielded : list A) :
  length rest = length yielded ->
  collect (filled ++ rest) (length filled) yielded = Some (filled ++ yielded).
Proof.
  revert filled rest. induction yielded as [|x ys IH]; intros filled rest Hlen.
  - destruct rest; [reflexivity|discriminate].
  - destruct rest as [|y rest]; [discriminate|]. simpl in Hlen.
    simpl. rewrite decide_True by (rewrite length_app; simpl; lia).
    replace (<[length filled:=x]> (filled ++ y :: rest))
      with ((filled ++ [x]) ++ rest).
    + replace (S (length filled)) with (length (filled ++ [x]))
        by (rewrite length_app; simpl; lia).
      rewrite IH by lia. rewrite <- app_assoc. reflexivity.
    + rewrite <- app_assoc. simpl. symmetry.
      rewrite insert_app_r_alt by lia.
      rewrite Nat.sub_diag. reflexivity.
Qed.

(** A slice made as long as the map is filled with what the range yields,
    in that order, and the loop never indexes out of range. *)
Lemma collect_all {A} (zero : A) (yielded : list A) :
  collect (replicate (length yielded) zero) 0%nat yielded = Some yielded.
Proof.
  apply (collect_from [] (replicate (length yielded) zero) yielded).
  apply length_replicate.
Qed.

(** ** What [post] does to the store and to the response *)

Lemma ID_created rt r : ID (created rt r) = FormatInt (UnixNano rt).
Proof. reflexivity. Qed.

(** Whatever the request and whatever was written before, [post] inserts. *)
Lemma post_store rt h w r :
  store (fst (post rt h w r)) = <[newID rt := created rt r]> (store h).
Proof.
  unfold post, created. destruct (Unmarshal (Body r) zero_coaster) as [c e].
  reflexivity.
Qed.

Lemma post_response_accepted rt h w r c :
  Get (ReqHeader r) "content-type" = "application/json" ->
  BodyErr r = None ->
  Unmarshal (Body r) zero_coaster = (c, None) ->
  snd (post rt h w r) = w.
Proof.
  intros Hct Hread Hdec. unfold post. rewrite Hct, Hread, Hdec. reflexivity.
Qed.

Lemma post_response_rejected rt h w r c e :
  Get (ReqHeader r) "content-type" = "application/json" ->
  BodyErr r = None ->
  Unmarshal (Body r) zero_coaster = (c, Some e) ->
  snd (post rt h w r) = (w |> WriteHeader StatusBadRequest |> Write (ErrorText e)).
Proof.
  intros Hct Hread Hdec. unfold post. rewrite Hct, Hread, Hdec. reflexivity.
Qed.

Lemma post_response_media_type rt h r :
  Get (ReqHeader r) "content-type" <> "application/json" ->
  BodyErr r = None ->
  response_status (snd (post rt h fresh r)) = StatusUnsupportedMediaType.
Proof.
  intros Hct Hread. unfold post. rewrite Hread.
  destruct (String.eqb_spec (Get (ReqHeader r) "content-type") "application/json");
    [contradiction|].
  destruct (Unmarshal (Body r) zero_coaster) as [c [e|]]; reflexivity.
Qed.

(** Only [POST] changes the store, and it changes it by one insertion. *)
Lemma coasters_store rt h w r h' w' :
  coasters rt h w r = Some (h', w') ->
  h' = h \/ store h' = <[newID rt := created rt r]> (store h).
Proof.
  unfold coasters. destruct (String.eqb (Method r) "GET").
  - destruct (get rt h w r); simpl; [|discriminate]. intros [= <- _]. now left.
  - destruct (String.eqb (Method r) "POST").
    + intros [= H]. right. rewrite <- (post_store rt h w r).
      destruct (post rt h w r); simpl in *. congruence.
    + intros [= <- _]. now left.
Qed.

(** Every record of a reachable store was put there by a creation, and is
    stored under its own identifier. *)
Lemma reachable_created h :
  reachable h ->
  forall k c, store h !! k = Some c ->
    exists rt r, c = created rt r /\ k = newID rt.
Proof.
  induction 1 as [|rt h w r h' w' Hreach IH Hstep]; intros k c Hk.
  - simpl in Hk. rewrite lookup_empty in Hk. discriminate.
  - destruct (coasters_store _ _ _ _ _ _ Hstep) as [->|Hst]; [eauto|].
    rewrite Hst in Hk. destruct (decide (newID rt = k)) as [<-|Hne].
    + rewrite lookup_insert_eq in Hk. injection Hk as <-. eauto.
    + rewrite lookup_insert_ne in Hk by assumption. eauto.
Qed.

Lemma reachable_numeral h k :
  reachable h -> is_Some (store h !! k) -> numeral k = true.
Proof.
  intros Hreach [c Hk].
  destruct (reachable_created h Hreach k c Hk) as (rt & r & _ & ->).
  apply FormatInt_numeral.
Qed.

Lemma posts_reachable h run : reachable h -> reachable (posts h run).
Proof.
  revert h. induction run as [|[rt r] run IH]; intros h Hreach; simpl; [assumption|].
  apply IH. destruct (post rt h fresh r) as [h' w'] eqn:Hpost.
  apply (reachable_coasters rt h fresh
           {| Method := "POST"; ReqURL := ReqURL r; ReqHeader := ReqHeader r;
              Body := Body r; BodyErr := BodyErr r; Credentials := Credentials r |}
           h' w' Hreach).
  unfold coasters. simpl. rewrite <- Hpost. reflexivity.
Qed.

(** Creations at readings different from those of the store's identifiers,
    and different from each other, all stay in the store. *)
Lemma posts_distinct_readings run : forall h,
  NoDup (readings run) ->
  (forall t, t ∈ readings run -> store h !! FormatInt t = None) ->
  size (store (posts h run)) = (size (store h) + length run)%nat /\
  (forall k c, store h !! k = Some c -> store (posts h run) !! k = Some c) /\
  (forall rt r, (rt, r) ∈ run ->
     store (posts h run) !! newID rt = Some (created rt r)).
Proof.
  induction run as [|[rt r] run IH]; intros h Hnd Hfree; simpl.
  - split; [lia|]. split; [auto|]. intros rt r Hin. inversion Hin.
  - simpl in Hnd. apply NoDup_cons in Hnd as [Hnotin Hnd].
    assert (Hnew : store h !! newID rt = None) by (apply Hfree; left).
    destruct (IH (fst (post rt h fresh r)) Hnd) as (Hsize & Hkeep & Hall).
    { intros t Ht. rewrite post_store.
      rewrite lookup_insert_ne; [apply Hfree; now right|].
      intros Heq. apply FormatInt_inj in Heq. congruence. }
    rewrite post_store in Hsize, Hkeep.
    rewrite map_size_insert_None in Hsize by assumption.
    split; [lia|]. split.
    + intros k c Hk. apply Hkeep. rewrite lookup_insert_ne; [assumption|].
      intros <-. congruence.
    + intros rt' r' Hin. apply elem_of_cons in Hin as [[= -> ->]|Hin].
      * apply Hkeep. apply lookup_insert_eq.
      * apply Hall, Hin.
Qed.

(** ** What [getCoaster] does with the URL *)

Lemma Split_coasters id :
  occurs "/" id = false ->
  Split ("/coasters/" +:+ id) "/" = [""; "coasters"; id].
Proof.
  intros Hid.
  change ("/coasters/" +:+ id) with (String "/" ("coasters" +:+ String "/" id)).
  cbn [Split]. rewrite Ascii.eqb_refl.
  rewrite Split_first by reflexivity. rewrite Split_whole by assumption.
  reflexivity.
Qed.

Lemma numeral_app s t : numeral (s +:+ t) = numeral s && numeral t.
Proof.
  induction s as [|a s IH]; simpl; [reflexivity|].
  rewrite IH. apply andb_assoc.
Qed.

(** A stored record is served as JSON under its identifier. *)
Lemma getCoaster_found rt h w r id c :
  URL_String (ReqURL r) = "/coasters/" +:+ id ->
  occurs "/" id = false ->
  id <> "random" ->
  store h !! id = Some c ->
  getCoaster rt h w r =
    Some (w |> HeaderAdd "content-type" "application/json"
            |> WriteHeader StatusOK
            |> Write (JsonText (encode c))).
Proof.
  intros Hurl Hslash Hrandom Hc. unfold getCoaster.
  rewrite Hurl, Split_coasters by assumption. simpl.
  destruct (String.eqb_spec id "random"); [contradiction|].
  rewrite Hc. reflexivity.
Qed.

(** An identifier that is not a key of the store is answered 404, with the
    last piece of the URL named in the message. *)
Lemma getCoaster_missing rt h w r id :
  URL_String (ReqURL r) = "/coasters/" +:+ id ->
  occurs "/" id = false ->
  id <> "random" ->
  store h !! id = None ->
  getCoaster rt h w r =
    Some (w |> WriteHeader StatusNotFound
            |> Write (Text ("No content found for ID, '" +:+ id +:+ "'"))).
Proof.
  intros Hurl Hslash Hrandom Hc. unfold getCoaster.
  rewrite Hurl, Split_coasters by assumption. simpl.
  destruct (String.eqb_spec id "random"); [contradiction|].
  rewrite Hc. reflexivity.
Qed.

(** A URL with more than two slashes is answered 404 before any lookup. *)
Lemma getCoaster_shape rt h w r id :
  URL_String (ReqURL r) = "/coasters/" +:+ id ->
  occurs "/" id = true ->
  getCoaster rt h w r =
    Some (w |> WriteHeader StatusNotFound
            |> Write (Text "The url that you request is not found")).
Proof.
  intros Hurl Hslash. unfold getCoaster. rewrite Hurl.
  change ("/coasters/" +:+ id) with (String "/" ("coasters" +:+ String "/" id)).
  cbn [Split]. rewrite Ascii.eqb_refl, Split_first by reflexivity.
  pose proof (Split_length id "/" Hslash) as Hlen.
  destruct (Z.eqb_spec (len ("" :: "coasters" :: Split id "/")) 3) as [H3|]; [|reflexivity].
  unfold len in H3. simpl in H3. lia.
Qed.

(** ** POST with the wrong media type *)

(** C1, at a request the code mishandles: a POST with content type
    [text/plain] is answered 415 with a message naming [text/plain], and yet
    its body is decoded and the record is inserted; the store is not what
    it was before the request. *)
Theorem post_wrong_media_type_inserts :
  let r := post_request [("Content-Type", "text/plain")] (Document taron) in
  let result := post (at_time noon) newCoasterHandlers fresh r in
  response_status (snd result) = StatusUnsupportedMediaType /\
  response_body (snd result) =
    [Text "Need type of application/json but got 'text/plain'"] /\
  store (fst result) !! "1600000000000000000" =
    Some {| Name := "Taron"; Manufactur := "Intamin"; ID := "1600000000000000000";
            InPark := "Phantasialand"; Height := 30 |} /\
  store (fst result) <> store newCoasterHandlers.
Proof.
  cbv zeta. split; [reflexivity|]. split; [reflexivity|].
  assert (Hin : store (fst (post (at_time noon) newCoasterHandlers fresh
                  (post_request [("Content-Type", "text/plain")] (Document taron))))
                !! "1600000000000000000"
                = Some {| Name := "Taron"; Manufactur := "Intamin";
                          ID := "1600000000000000000";
                          InPark := "Phantasialand"; Height := 30 |})
    by (vm_compute; reflexivity).
  split; [exact Hin|].
  intros Heq. rewrite Heq in Hin. simpl in Hin. rewrite lookup_empty in Hin.
  discriminate.
Qed.

(** The same in general: whatever the content type, the insertion happens. *)
Lemma post_inserts_whatever_the_media_type rt h r :
  Get (ReqHeader r) "content-type" <> "application/json" ->
  BodyErr r = None ->
  response_status (snd (post rt h fresh r)) = StatusUnsupportedMediaType /\
  store (fst (post rt h fresh r)) !! newID rt = Some (created rt r).
Proof.
  intros Hct Hread. split; [now apply post_response_media_type|].
  rewrite post_store. apply lookup_insert_eq.
Qed.

(** ** POST of a well-formed body *)

(** C3 as stated fails: a POST with content type [application/json] and a
    well-formed body is not answered 201 with the created coaster; the
    handler writes nothing, so the answer is 200 with an empty body. *)
Lemma post_success_is_not_created :
  let r := post_request json_header (Document taron) in
  let w' := snd (post (at_time noon) newCoasterHandlers fresh r) in
  response_status w' <> StatusCreated /\
  response_status w' = StatusOK /\
  response_body w' = [].
Proof. cbv zeta. split; [discriminate|]. split; reflexivity. Qed.

(** C3, amended: for every POST with content type [application/json] whose
    body was read and decodes without error into a coaster [c], the handler
    writes neither a status nor a body (the client gets 200 and an empty
    body), and the store gains [c] under the identifier assigned by the
    server, which is also the record's [id]. *)
Theorem post_accepted_writes_nothing rt h r c :
  Get (ReqHeader r) "content-type" = "application/json" ->
  BodyErr r = None ->
  Unmarshal (Body r) zero_coaster = (c, None) ->
  snd (post rt h fresh r) = fresh /\
  response_status (snd (post rt h fresh r)) = StatusOK /\
  response_body (snd (post rt h fresh r)) = [] /\
  store (fst (post rt h fresh r)) = <[newID rt := set_ID (newID rt) c]> (store h).
Proof.
  intros Hct Hread Hdec.
  rewrite (post_response_accepted rt h fresh r c Hct Hread Hdec).
  repeat split. rewrite post_store. unfold created. rewrite Hdec. reflexivity.
Qed.

Lemma post_accepted_writes_nothing_witness :
  snd (post (at_time noon) newCoasterHandlers fresh
         (post_request json_header (Document taron))) = fresh /\
  response_status (snd (post (at_time noon) newCoasterHandlers fresh
         (post_request json_header (Document taron)))) = StatusOK /\
  response_body (snd (post (at_time noon) newCoasterHandlers fresh
         (post_request json_header (Document taron)))) = [] /\
  store (fst (post (at_time noon) newCoasterHandlers fresh
         (post_request json_header (Document taron)))) =
    <[newID (at_time noon) :=
        set_ID (newID (at_time noon))
          {| Name := "Taron"; Manufactur := "Intamin"; ID := "chosen-by-client";
             InPark := "Phantasialand"; Height := 30 |}]>
      (store newCoasterHandlers).
Proof.
  apply (post_accepted_writes_nothing (at_time noon) newCoasterHandlers
           (post_request json_header (Document taron))); reflexivity.
Defined.

(** ** POST of a body that fails to decode *)

(** C9 as stated fails: a body that is well-formed JSON but has a string
    where [height] wants a number fails to decode and is answered 400, yet
    the record inserted is not zero-valued: the name decoded before the
    error is kept. *)
Lemma post_type_error_keeps_decoded_fields :
  let r := post_request json_header (Document tall) in
  let result := post (at_time noon) newCoasterHandlers fresh r in
  snd (Unmarshal (Body r) zero_coaster) = Some (UnmarshalTypeError "string" "height") /\
  response_status (snd result) = StatusBadRequest /\
  store (fst result) !! newID (at_time noon) =
    Some {| Name := "Taron"; Manufactur := ""; ID := "1600000000000000000";
            InPark := ""; Height := 0 |} /\
  store (fst result) !! newID (at_time noon) <>
    Some (set_ID (newID (at_time noon)) zero_coaster).
Proof.
  cbv zeta. split; [reflexivity|]. split; [reflexivity|].
  split; [vm_compute; reflexivity|]. vm_compute. discriminate.
Qed.

(** C9, amended: for every POST with content type [application/json] whose
    body was read and fails to decode, the handler answers 400 with the
    text of the error and then still inserts, under a newly assigned
    identifier, the record as far as it was decoded: the zero-valued record
    when the body is not valid JSON, and a record with the fields decoded
    despite the error otherwise.  The store grows by one entry when the
    identifier was not in it. *)
Theorem post_rejected_still_inserts rt h r c e :
  Get (ReqHeader r) "content-type" = "application/json" ->
  BodyErr r = None ->
  Unmarshal (Body r) zero_coaster = (c, Some e) ->
  response_status (snd (post rt h fresh r)) = StatusBadRequest /\
  response_body (snd (post rt h fresh r)) = [ErrorText e] /\
  store (fst (post rt h fresh r)) = <[newID rt := set_ID (newID rt) c]> (store h) /\
  (forall msg, Body r = Invalid msg -> c = zero_coaster) /\
  (store h !! newID rt = None ->
   size (store (fst (post rt h fresh r))) = S (size (store h))).
Proof.
  intros Hct Hread Hdec.
  rewrite (post_response_rejected rt h fresh r c e Hct Hread Hdec).
  rewrite post_store. unfold created. rewrite Hdec. simpl fst.
  split; [reflexivity|]. split; [reflexivity|]. split; [reflexivity|]. split.
  - intros msg Hbody. rewrite Hbody in Hdec. simpl in Hdec. congruence.
  - intros Hnew. now apply map_size_insert_None.
Qed.

Lemma post_rejected_still_inserts_witness :
  response_status (snd (post (at_time noon) newCoasterHandlers fresh
      (post_request json_header (Invalid "unexpected end of JSON input"))))
    = StatusBadRequest /\
  response_body (snd (post (at_time noon) newCoasterHandlers fresh
      (post_request json_header (Invalid "unexpected end of JSON input"))))
    = [ErrorText (SyntaxError "unexpected end of JSON input")] /\
  store (fst (post (at_time noon) newCoasterHandlers fresh
      (post_request json_header (Invalid "unexpected end of JSON input"))))
    = <[newID (at_time noon) := set_ID (newID (at_time noon)) zero_coaster]>
        (store newCoasterHandlers) /\
  (forall msg, Body (post_request json_header (Invalid "unexpected end of JSON input"))
               = Invalid msg -> zero_coaster = zero_coaster) /\
  (store newCoasterHandlers !! newID (at_time noon) = None ->
   size (store (fst (post (at_time noon) newCoasterHandlers fresh
      (post_request json_header (Invalid "unexpected end of JSON input")))))
   = S (size (store newCoasterHandlers))).
Proof.
  apply (post_rejected_still_inserts (at_time noon) newCoasterHandlers
           (post_request json_header (Invalid "unexpected end of JSON input"))
           zero_coaster (SyntaxError "unexpected end of JSON input"));
    reflexivity.
Defined.

(** ** Identifiers *)

(** C6 as stated fails: two creations that read the same value of the
    clock get the same identifier, so identifiers are not pairwise unique
    over the lifetime of the store; the second record replaces the first. *)
Lemma same_reading_same_id :
  let rt := at_time noon in
  let first := post_request json_header (Document taron) in
  let second := post_request json_header (Document helix) in
  created rt first <> created rt second /\
  ID (created rt first) = ID (created rt second) /\
  size (store (posts newCoasterHandlers [(rt, first); (rt, second)])) = 1%nat.
Proof.
  cbv zeta. split; [discriminate|]. split; [reflexivity|].
  vm_compute. reflexivity.
Qed.

(** C6, amended: every coaster of a reachable store is stored under its own
    [id], which the server assigned at creation as the decimal numeral of
    the clock reading (whatever [id] the client sent is overwritten); two
    creations get different identifiers exactly when their readings differ,
    so after a run of creations whose readings are pairwise different (as
    those of a strictly increasing clock are) every created record is in
    the store under an identifier of its own. *)
Theorem ids_assigned_by_server :
  (forall h k c, reachable h -> store h !! k = Some c ->
     ID c = k /\ exists rt r, c = created rt r /\ k = FormatInt (UnixNano rt)) /\
  (forall rt r, ID (created rt r) = FormatInt (UnixNano rt)) /\
  (forall rt1 r1 rt2 r2,
     ID (created rt1 r1) = ID (created rt2 r2) <-> UnixNano rt1 = UnixNano rt2) /\
  (forall run, NoDup (readings run) ->
     size (store (posts newCoasterHandlers run)) = length run /\
     forall rt r, (rt, r) ∈ run ->
       store (posts newCoasterHandlers run) !! ID (created rt r) = Some (created rt r)).
Proof.
  split; [|split; [|split]].
  - intros h k c Hreach Hk.
    destruct (reachable_created h Hreach k c Hk) as (rt & r & -> & ->).
    split; [reflexivity|]. exists rt, r. split; reflexivity.
  - reflexivity.
  - intros rt1 r1 rt2 r2. rewrite !ID_created. split.
    + apply FormatInt_inj.
    + now intros ->.
  - intros run Hnd.
    destruct (posts_distinct_readings run newCoasterHandlers Hnd) as (Hsize & _ & Hall).
    { intros t _. apply lookup_empty. }
    split; [exact Hsize|]. intros rt r Hin. apply Hall, Hin.
Qed.

Lemma ids_assigned_by_server_witness :
  size (store (posts newCoasterHandlers
         [(at_time noon, post_request json_header (Document taron));
          (at_time (noon + 1), post_request json_header (Document helix))]))
    = 2%nat /\
  ID (created (at_time noon) (post_request json_header (Document taron)))
    = "1600000000000000000" /\
  ID (created (at_time (noon + 1)) (post_request json_header (Document helix)))
    = "1600000000000000001".
Proof.
  destruct ids_assigned_by_server as (_ & Hid & _ & Hrun).
  split; [|split; apply Hid].
  apply (Hrun [(at_time noon, post_request json_header (Document taron));
               (at_time (noon + 1), post_request json_header (Document helix))]).
  apply (bool_decide_unpack _). vm_compute. exact I.
Defined.

(** ** Put, then get *)

(** C5 as stated fails: two accepted creations that read the same value of
    the clock are assigned the same identifier, and a GET of that identifier
    afterwards returns the second coaster, not the first. *)
Lemma second_post_takes_the_id :
  let rt := at_time noon in
  let h1 := fst (post rt newCoasterHandlers fresh (post_request json_header (Document taron))) in
  let h2 := fst (post rt h1 fresh (post_request json_header (Document helix))) in
  (Name <$> store h1 !! "1600000000000000000") = Some "Taron" /\
  (Name <$> store h2 !! "1600000000000000000") = Some "Helix" /\
  (response_body <$>
     getCoaster rt h2 fresh (get_request "/coasters/1600000000000000000" "")) =
    Some [JsonText (encode {| Name := "Helix"; Manufactur := "Mack Rides";
                              ID := "1600000000000000000";
                              InPark := "Liseberg"; Height := 41 |})].
Proof. cbv zeta. repeat split; vm_compute; reflexivity. Qed.

(** C5, amended: for every coaster [c] accepted by POST /coasters, the
    identifier assigned (the response does not carry it) is not empty and
    differs from the identifier of every creation that read a different
    value of the clock, and a GET /coasters/{id} with that identifier right
    after the POST answers 200 with the JSON of a record equal to [c] in
    every field except [id], which is the assigned identifier. *)
Theorem post_then_get rt h r c rt' r' :
  Get (ReqHeader r) "content-type" = "application/json" ->
  BodyErr r = None ->
  Unmarshal (Body r) zero_coaster = (c, None) ->
  URL_String (ReqURL r') = "/coasters/" +:+ newID rt ->
  let h' := fst (post rt h fresh r) in
  let stored := set_ID (newID rt) c in
  newID rt <> "" /\
  (forall rt0, UnixNano rt0 <> UnixNano rt -> newID rt0 <> newID rt) /\
  (exists w', getCoaster rt' h' fresh r' = Some w' /\
     response_status w' = StatusOK /\
     response_body w' = [JsonText (encode stored)]) /\
  Name stored = Name c /\ Manufactur stored = Manufactur c /\
  InPark stored = InPark c /\ Height stored = Height c /\
  ID stored = newID rt.
Proof.
  intros Hct Hread Hdec Hurl h' stored.
  split; [apply FormatInt_nonempty|]. split.
  { intros rt0 Hne Heq. apply Hne, FormatInt_inj, Heq. }
  split; [|repeat split].
  eexists. split.
  - apply (getCoaster_found rt' h' fresh r' (newID rt) stored Hurl).
    + now apply FormatInt_no_byte.
    + apply FormatInt_not_random.
    + subst h' stored. rewrite post_store. unfold created. rewrite Hdec.
      apply lookup_insert_eq.
  - split; reflexivity.
Qed.

Lemma post_then_get_witness :
  newID (at_time noon) <> "" /\
  (forall rt0, UnixNano rt0 <> UnixNano (at_time noon) -> newID rt0 <> newID (at_time noon)) /\
  (exists w',
     getCoaster (at_time (noon + 5))
       (fst (post (at_time noon) newCoasterHandlers fresh
               (post_request json_header (Document helix))))
       fresh (get_request "/coasters/1600000000000000000" "") = Some w' /\
     response_status w' = StatusOK /\
     response_body w' =
       [JsonText (encode (set_ID (newID (at_time noon))
          {| Name := "Helix"; Manufactur := "Mack Rides"; ID := "";
             InPark := "Liseberg"; Height := 41 |}))]) /\
  "Helix" = "Helix" /\ "Mack Rides" = "Mack Rides" /\ "Liseberg" = "Liseberg" /\
  41 = 41 /\ newID (at_time noon) = newID (at_time noon).
Proof.
  apply (post_then_get (at_time noon) newCoasterHandlers
           (post_request json_header (Document helix))
           {| Name := "Helix"; Manufactur := "Mack Rides"; ID := "";
              InPark := "Liseberg"; Height := 41 |}
           (at_time (noon + 5))
           (get_request "/coasters/1600000000000000000" "")); reflexivity.
Defined.

(** ** A query string after the identifier *)

(** C10: the identifier looked up is the last piece of the whole URL, query
    string included.  In every reachable store, a GET for a stored
    identifier followed by a query string is answered 404; when the query
    has no slash the key looked up is [{id}?{query}], as the message shows
    (with a slash in it the URL has too many pieces and no lookup takes
    place).  Without the query string the same identifier is found. *)
Theorem getCoaster_query_string rt h id c q :
  reachable h ->
  store h !! id = Some c ->
  q <> "" ->
  (exists w',
     getCoaster rt h fresh (get_request ("/coasters/" +:+ id) q) = Some w' /\
     response_status w' = StatusNotFound /\
     (occurs "/" q = false ->
      Split (URL_String (ReqURL (get_request ("/coasters/" +:+ id) q))) "/"
        = [""; "coasters"; id +:+ "?" +:+ q] /\
      store h !! (id +:+ "?" +:+ q) = None /\
      response_body w' =
        [Text ("No content found for ID, '" +:+ (id +:+ "?" +:+ q) +:+ "'")])) /\
  (exists w',
     getCoaster rt h fresh (get_request ("/coasters/" +:+ id) "") = Some w' /\
     response_status w' = StatusOK).
Proof.
  intros Hreach Hc Hq.
  assert (Hnum : numeral id = true) by (apply (reachable_numeral h); eauto).
  assert (Hid : occurs "/" id = false) by (now apply numeral_occurs).
  assert (Hurl : URL_String (ReqURL (get_request ("/coasters/" +:+ id) q))
                 = "/coasters/" +:+ (id +:+ "?" +:+ q)).
  { unfold URL_String, get_request, request; simpl.
    destruct (String.eqb_spec q ""); [contradiction|]. simpl.
    clear. induction id as [|a s IH]; simpl; [reflexivity|]. reflexivity. }
  assert (Hkey : store h !! (id +:+ "?" +:+ q) = None).
  { destruct (store h !! (id +:+ "?" +:+ q)) eqn:Hk; [|reflexivity].
    assert (Hn : numeral (id +:+ "?" +:+ q) = true)
      by (apply (reachable_numeral h); eauto).
    rewrite numeral_app in Hn. simpl in Hn. rewrite andb_false_r in Hn.
    discriminate. }
  assert (Hnot : id +:+ "?" +:+ q <> "random").
  { intros Heq. assert (Ho : occurs "?" (id +:+ "?" +:+ q) = true).
    { rewrite occurs_query. simpl. apply orb_true_r. }
    rewrite Heq in Ho. discriminate. }
  split.
  - destruct (occurs "/" q) eqn:Hslash.
    + eexists. split.
      * apply (getCoaster_shape rt h fresh _ _ Hurl).
        rewrite occurs_query, Hslash. simpl. apply orb_true_r.
      * split; [reflexivity|discriminate].
    + assert (Hpiece : occurs "/" (id +:+ "?" +:+ q) = false).
      { now rewrite occurs_query, Hid, Hslash. }
      eexists. split.
      * apply (getCoaster_missing rt h fresh _ _ Hurl Hpiece Hnot Hkey).
      * split; [reflexivity|]. intros _. split; [|split].
        -- rewrite Hurl. now apply Split_coasters.
        -- exact Hkey.
        -- reflexivity.
  - eexists. split.
    + apply (getCoaster_found rt h fresh _ id c); try assumption.
      * reflexivity.
      * intros ->. discriminate.
    + reflexivity.
Qed.

Lemma getCoaster_query_string_witness :
  (exists w',
     getCoaster (at_time (noon + 5))
       (posts newCoasterHandlers [(at_time noon, post_request json_header (Document taron))])
       fresh (get_request ("/coasters/" +:+ "1600000000000000000") "k=v") = Some w' /\
     response_status w' = StatusNotFound /\
     (occurs "/" "k=v" = false ->
      Split (URL_String (ReqURL (get_request ("/coasters/" +:+ "1600000000000000000") "k=v"))) "/"
        = [""; "coasters"; "1600000000000000000" +:+ "?" +:+ "k=v"] /\
      store (posts newCoasterHandlers
               [(at_time noon, post_request json_header (Document taron))])
        !! ("1600000000000000000" +:+ "?" +:+ "k=v") = None /\
      response_body w' =
        [Text ("No content found for ID, '" +:+ ("1600000000000000000" +:+ "?" +:+ "k=v") +:+ "'")])) /\
  (exists w',
     getCoaster (at_time (noon + 5))
       (posts newCoasterHandlers [(at_time noon, post_request json_header (Document taron))])
       fresh (get_request ("/coasters/" +:+ "1600000000000000000") "") = Some w' /\
     response_status w' = StatusOK).
Proof.
  apply (getCoaster_query_string (at_time (noon + 5))
           (posts newCoasterHandlers
              [(at_time noon, post_request json_header (Document taron))])
           "1600000000000000000"
           {| Name := "Taron"; Manufactur := "Intamin"; ID := "1600000000000000000";
              InPark := "Phantasialand"; Height := 30 |}
           "k=v").
  - apply posts_reachable, reachable_new.
  - vm_compute. reflexivity.
  - discriminate.
Defined.

(** ** The random redirect *)

(** Facts that hold in every run whose range only rearranges the map. *)
Section Range.

Variable rt : runtime.
Hypothesis Hrt : rearranges rt.

Lemma ids_of_keys h : ids_of rt h ≡ₚ map fst (map_to_list (store h)).
Proof. unfold ids_of, range. now rewrite (Hrt _). Qed.

Lemma ids_of_length h : length (ids_of rt h) = size (store h).
Proof. rewrite ids_of_keys, length_map. apply length_map_to_list. Qed.

Lemma ids_of_NoDup h : NoDup (ids_of rt h).
Proof. rewrite ids_of_keys. apply NoDup_fst_map_to_list. Qed.

Lemma ids_of_stored h k : k ∈ ids_of rt h <-> is_Some (store h !! k).
Proof.
  rewrite ids_of_keys, list_elem_of_fmap. split.
  - intros ([k' c] & -> & Hin). apply elem_of_map_to_list in Hin. eauto.
  - intros [c Hc]. exists (k, c). split; [reflexivity|].
    now apply elem_of_map_to_list.
Qed.

(** The handler never panics; what it answers is decided by the number of
    identifiers: none, one, or more, and then the index drawn is
    [randSource mod (n - 1)]. *)
Lemma getRandomCoaster_cases h w r :
  getRandomCoaster rt h w r =
    match ids_of rt h with
    | [] => Some (w |> WriteHeader StatusNotFound)
    | [k] => Some (redirect k w)
    | ids =>
        k ← ids !! Z.to_nat (randSource rt mod (len ids - 1));
        Some (redirect k w)
    end.
Proof.
  unfold getRandomCoaster.
  rewrite <- (ids_of_length h). fold (ids_of rt h).
  rewrite collect_all. simpl.
  destruct (ids_of rt h) as [|k [|k' ids]] eqn:Hids; [reflexivity..|].
  assert (Hlen : len (k :: k' :: ids) - 1 = Z.of_nat (S (length ids)))
    by (unfold len; simpl length; lia).
  destruct (Z.eqb_spec (len (k :: k' :: ids)) 0) as [H0|_]; [lia|].
  destruct (Z.eqb_spec (len (k :: k' :: ids)) 1) as [H1|_]; [lia|].
  unfold Intn.
  destruct (Z.leb_spec (len (k :: k' :: ids) - 1) 0) as [Hle|_]; [lia|].
  simpl. unfold index.
  destruct (Z.ltb_spec (randSource rt mod (len (k :: k' :: ids) - 1)) 0) as [Hneg|_];
    [|reflexivity].
  pose proof (Z.mod_pos_bound (randSource rt) (len (k :: k' :: ids) - 1)). lia.
Qed.

End Range.

Lemma getCoaster_random rt h w r :
  URL_String (ReqURL r) = "/coasters/random" ->
  getCoaster rt h w r = getRandomCoaster rt h w r.
Proof. intros Hurl. unfold getCoaster. rewrite Hurl. reflexivity. Qed.

Lemma Location_redirect k :
  response_status (redirect k fresh) = StatusFound /\
  Get (response_header (redirect k fresh)) "Location" = "/coasters/" +:+ k /\
  response_body (redirect k fresh) = [].
Proof. repeat split. Qed.

(** C7: a GET of [/coasters/random] is answered 404 when the store is
    empty; with exactly one coaster in the store the redirect goes to that
    coaster; and whenever the store is not empty the answer is 302 with
    [Location: /coasters/{id}] for the identifier selected, which is one of
    the store. *)
Theorem random_redirect rt h r :
  rearranges rt ->
  URL_String (ReqURL r) = "/coasters/random" ->
  (store h = ∅ ->
   exists w', getCoaster rt h fresh r = Some w' /\
     response_status w' = StatusNotFound) /\
  (forall k c, store h = {[k := c]} ->
   exists w', getCoaster rt h fresh r = Some w' /\
     response_status w' = StatusFound /\
     Get (response_header w') "Location" = "/coasters/" +:+ k) /\
  (store h <> ∅ ->
   exists w' k, is_Some (store h !! k) /\
     getCoaster rt h fresh r = Some w' /\
     response_status w' = StatusFound /\
     Get (response_header w') "Location" = "/coasters/" +:+ k /\
     response_body w' = []).
Proof.
  intros Hrt Hurl.
  rewrite (getCoaster_random rt h fresh r Hurl), (getRandomCoaster_cases rt Hrt h fresh r).
  pose proof (ids_of_length rt Hrt h) as Hlen.
  pose proof (ids_of_keys rt Hrt h) as Hperm.
  split; [|split].
  - intros Hempty. rewrite Hempty, map_size_empty in Hlen.
    destruct (ids_of rt h); [|discriminate]. eexists. split; reflexivity.
  - intros k c Hone. rewrite Hone, map_to_list_singleton in Hperm. simpl in Hperm.
    apply Permutation_singleton_r in Hperm. rewrite Hperm.
    eexists. split; [reflexivity|]. split; reflexivity.
  - intros Hne.
    assert (Hsize : size (store h) <> 0%nat) by (now rewrite map_size_empty_iff).
    destruct (ids_of rt h) as [|k [|k' ids]] eqn:Hids; [simpl in Hlen; congruence| |].
    + exists (redirect k fresh), k. split.
      { apply (ids_of_stored rt Hrt h k). rewrite Hids. left. }
      split; [reflexivity|]. apply Location_redirect.
    + cbv beta iota zeta.
      set (i := Z.to_nat (randSource rt mod (len (k :: k' :: ids) - 1))).
      assert (Hi : (i < length (k :: k' :: ids))%nat).
      { subst i. unfold len. simpl length.
        pose proof (Z.mod_pos_bound (randSource rt) (Z.of_nat (S (S (length ids))) - 1)).
        lia. }
      destruct (lookup_lt_is_Some_2 _ _ Hi) as [target Htarget].
      exists (redirect target fresh), target. split.
      { apply (ids_of_stored rt Hrt h target). rewrite Hids.
        apply list_elem_of_lookup. eauto. }
      rewrite Htarget. split; [reflexivity|]. apply Location_redirect.
Qed.

Lemma random_redirect_witness :
  (store (posts newCoasterHandlers [(at_time noon, post_request json_header (Document taron))]) = ∅ ->
   exists w',
     getCoaster (at_time (noon + 5))
       (posts newCoasterHandlers [(at_time noon, post_request json_header (Document taron))])
       fresh (get_request "/coasters/random" "") = Some w' /\
     response_status w' = StatusNotFound) /\
  (forall k c,
   store (posts newCoasterHandlers [(at_time noon, post_request json_header (Document taron))])
     = {[k := c]} ->
   exists w',
     getCoaster (at_time (noon + 5))
       (posts newCoasterHandlers [(at_time noon, post_request json_header (Document taron))])
       fresh (get_request "/coasters/random" "") = Some w' /\
     response_status w' = StatusFound /\
     Get (response_header w') "Location" = "/coasters/" +:+ k) /\
  (store (posts newCoasterHandlers [(at_time noon, post_request json_header (Document taron))]) <> ∅ ->
   exists w' k,
     is_Some (store (posts newCoasterHandlers
                [(at_time noon, post_request json_header (Document taron))]) !! k) /\
     getCoaster (at_time (noon + 5))
       (posts newCoasterHandlers [(at_time noon, post_request json_header (Document taron))])
       fresh (get_request "/coasters/random" "") = Some w' /\
     response_status w' = StatusFound /\
     Get (response_header w') "Location" = "/coasters/" +:+ k /\
     response_body w' = []).
Proof.
  apply (random_redirect (at_time (noon + 5))
           (posts newCoasterHandlers
              [(at_time noon, post_request json_header (Document taron))])
           (get_request "/coasters/random" "")).
  - intros entries. reflexivity.
  - reflexivity.
Defined.

(** C2, on the code as it is: with two or more coasters in the store the
    index is drawn from [0 .. n-2], not from [0 .. n-1].  Whatever the order
    in which the range yields the identifiers, the last one yielded is a
    stored identifier that no value of the random source selects. *)
Theorem random_never_selects_last order h r :
  (forall entries, order entries ≡ₚ entries) ->
  (2 <= size (store h))%nat ->
  exists final,
    is_Some (store h !! final) /\
    last (ids_of (mkRuntime 0 order 0) h) = Some final /\
    forall t n, exists i k,
      (Z.of_nat i < len (ids_of (mkRuntime t order n) h) - 1) /\
      ids_of (mkRuntime t order n) h !! i = Some k /\
      getRandomCoaster (mkRuntime t order n) h fresh r = Some (redirect k fresh) /\
      k <> final.
Proof.
  intros Horder Hsize.
  set (ids := ids_of (mkRuntime 0 order 0) h).
  assert (Hrt : forall t n, rearranges (mkRuntime t order n)) by (intros t n; exact Horder).
  assert (Hlen : length ids = size (store h)) by (apply ids_of_length, Hrt).
  assert (Hnd : NoDup ids) by (apply ids_of_NoDup, Hrt).
  assert (Hsplit : exists front final, ids = front ++ [final]).
  { destruct ids as [|k l] using rev_ind; [simpl in Hlen; lia|eauto]. }
  destruct Hsplit as (front & final & Hids).
  exists final. split; [|split].
  - apply (ids_of_stored _ (Hrt 0 0) h final).
    fold ids. rewrite Hids. apply elem_of_app. right. left.
  - fold ids. rewrite Hids. apply last_snoc.
  - intros t n. rewrite (getRandomCoaster_cases _ (Hrt t n) h fresh r).
    change (ids_of (mkRuntime t order n) h) with ids.
    assert (Hfront : (1 <= length front)%nat).
    { rewrite Hids, length_app in Hlen. simpl in Hlen. lia. }
    assert (Hbound : len ids - 1 = Z.of_nat (length front)).
    { unfold len. rewrite Hids, length_app. simpl. lia. }
    set (i := Z.to_nat (randSource (mkRuntime t order n) mod (len ids - 1))).
    assert (Hi : (i < length front)%nat).
    { subst i. rewrite Hbound.
      pose proof (Z.mod_pos_bound n (Z.of_nat (length front))). simpl. lia. }
    destruct (lookup_lt_is_Some_2 _ _ Hi) as [k Hk].
    assert (Hk' : ids !! i = Some k).
    { rewrite Hids. rewrite lookup_app_l by assumption. exact Hk. }
    exists i, k. split; [lia|]. split; [exact Hk'|]. split.
    + destruct ids as [|k1 [|k2 rest]] eqn:Hshape.
      * destruct front; discriminate.
      * destruct front as [|? [|? ?]]; simpl in *; try discriminate; lia.
      * cbv beta iota zeta. fold i. rewrite Hk'. reflexivity.
    + intros ->. rewrite Hids in Hnd. apply NoDup_app in Hnd as (_ & Hdisj & _).
      apply (Hdisj final).
      * apply list_elem_of_lookup. eauto.
      * left.
Qed.

Lemma random_never_selects_last_witness :
  exists final,
    is_Some (store (posts newCoasterHandlers
                      [(at_time noon, post_request json_header (Document taron));
                       (at_time (noon + 1), post_request json_header (Document helix))])
             !! final) /\
    last (ids_of (mkRuntime 0 the_range 0)
            (posts newCoasterHandlers
               [(at_time noon, post_request json_header (Document taron));
                (at_time (noon + 1), post_request json_header (Document helix))]))
      = Some final /\
    forall t n, exists i k,
      (Z.of_nat i <
       len (ids_of (mkRuntime t the_range n)
              (posts newCoasterHandlers
                 [(at_time noon, post_request json_header (Document taron));
                  (at_time (noon + 1), post_request json_header (Document helix))])) - 1) /\
      ids_of (mkRuntime t the_range n)
        (posts newCoasterHandlers
           [(at_time noon, post_request json_header (Document taron));
            (at_time (noon + 1), post_request json_header (Document helix))]) !! i = Some k /\
      getRandomCoaster (mkRuntime t the_range n)
        (posts newCoasterHandlers
           [(at_time noon, post_request json_header (Document taron));
            (at_time (noon + 1), post_request json_header (Document helix))])
        fresh (get_request "/coasters/random" "") = Some (redirect k fresh) /\
      k <> final.
Proof.
  apply (random_never_selects_last the_range
           (posts newCoasterHandlers
              [(at_time noon, post_request json_header (Document taron));
               (at_time (noon + 1), post_request json_header (Document helix))])
           (get_request "/coasters/random" "")).
  - intros entries. reflexivity.
  - vm_compute. lia.
Defined.

(** ** The admin page *)

(** C8: a GET of [/admin] is answered 401 with the text [401 unauthorized]
    exactly when the request is one the portal turns away; every other
    request is answered 200 with the HTML welcome. *)
Theorem admin_handler a r :
  (rejected a r <-> response_status (handler a fresh r) = StatusUnauthorized) /\
  (rejected a r -> response_body (handler a fresh r) = [Text "401 unauthorized"]) /\
  (~ rejected a r ->
   response_status (handler a fresh r) = StatusOK /\
   response_body (handler a fresh r) =
     [Text "<div><h2 style='color:orange;'>Wellcome, admin</h2></div>"]).
Proof.
  unfold handler, BasicAuth, rejected.
  destruct (Credentials r) as [[username pass]|]; simpl.
  - destruct (String.eqb_spec username "admin") as [->|Huser]; simpl.
    + destruct (String.eqb_spec pass (password a)) as [->|Hpass]; simpl.
      * split; [|split].
        -- split; [|discriminate].
           intros [?|(u & p & [= <- <-] & [?|?])]; congruence.
        -- intros [?|(u & p & [= <- <-] & [?|?])]; congruence.
        -- intros _. split; reflexivity.
      * split; [|split].
        -- split; [reflexivity|]. intros _. right. eauto.
        -- reflexivity.
        -- intros Hnot. exfalso. apply Hnot. right. eauto.
    + split; [|split].
      * split; [reflexivity|]. intros _. right. eauto.
      * reflexivity.
      * intros Hnot. exfalso. apply Hnot. right. eauto.
  - split; [|split].
    + split; [reflexivity|]. intros _. now left.
    + reflexivity.
    + intros Hnot. exfalso. apply Hnot. now left.
Qed.

Lemma admin_handler_witness :
  response_status (handler {| password := "s3cret" |} fresh (with_credentials None))
    = StatusUnauthorized /\
  response_status (handler {| password := "s3cret" |} fresh
                     (with_credentials (Some ("admin", "guess"))))
    = StatusUnauthorized /\
  response_status (handler {| password := "s3cret" |} fresh
                     (with_credentials (Some ("root", "s3cret"))))
    = StatusUnauthorized /\
  response_status (handler {| password := "s3cret" |} fresh
                     (with_credentials (Some ("admin", "s3cret"))))
    = StatusOK.
Proof.
  split; [|split; [|split]].
  - apply (admin_handler {| password := "s3cret" |} (with_credentials None)).
    now left.
  - apply (admin_handler {| password := "s3cret" |}
             (with_credentials (Some ("admin", "guess")))).
    right. exists "admin", "guess". split; [reflexivity|]. right. discriminate.
  - apply (admin_handler {| password := "s3cret" |}
             (with_credentials (Some ("root", "s3cret")))).
    right. exists "root", "s3cret". split; [reflexivity|]. left. discriminate.
  - apply (admin_handler {| password := "s3cret" |}
             (with_credentials (Some ("admin", "s3cret")))).
    intros [H|(u & p & H & [Hu|Hp])]; [discriminate| |];
      injection H as <- <-; [now apply Hu|now apply Hp].
Defined.

(** ** The JSON shape of a coaster *)

(** C4, on the code as it is: a coaster is written with the keys [name],
    [manufactur], [id], [inPark], [height]; the key [manufacturer] is never
    written, and on input it selects no field, so the manufacturer sent
    under it is dropped. *)
Theorem coaster_json_keys c :
  keys (encode c) = ["name"; "manufactur"; "id"; "inPark"; "height"] /\
  ("manufacturer" ∉ keys (encode c)) /\
  find_field "manufacturer" = None /\
  find_field "manufactur" = Some FManufactur /\
  decode (JObject [("name", JString "Taron"); ("manufacturer", JString "Intamin")])
         zero_coaster
    = ({| Name := "Taron"; Manufactur := ""; ID := ""; InPark := ""; Height := 0 |},
       None).
Proof.
  split; [reflexivity|]. split; [|repeat split].
  simpl. intros Hin.
  repeat (apply elem_of_cons in Hin as [Hin|Hin]; [discriminate|]).
  inversion Hin.
Qed.

(** * Further properties of the handlers *)

(** ** The dispatcher [coasters] and the life of the store *)

(** X1: a request to [/coasters] whose method is neither [GET] nor [POST]
    (the comparison is exact, so [get] is such a method) is answered 405
    with the text [Method not allowed]; the handler does not panic and the
    store is left as it was. *)
Theorem coasters_method_not_allowed rt h r :
  Method r <> "GET" ->
  Method r <> "POST" ->
  exists w',
    coasters rt h fresh r = Some (h, w') /\
    response_status w' = StatusMethodNotAllowed /\
    response_body w' = [Text "Method not allowed"].
Proof.
  intros Hget Hpost. unfold coasters.
  destruct (String.eqb_spec (Method r) "GET"); [contradiction|].
  destruct (String.eqb_spec (Method r) "POST"); [contradiction|].
  eexists. split; [reflexivity|]. split; reflexivity.
Qed.

Lemma coasters_method_not_allowed_witness :
  exists w',
    coasters (at_time noon) newCoasterHandlers fresh
      (request "get" "/coasters" "" [] (Invalid "unexpected end of JSON input"))
      = Some (newCoasterHandlers, w') /\
    response_status w' = StatusMethodNotAllowed /\
    response_body w' = [Text "Method not allowed"].
Proof.
  apply (coasters_method_not_allowed (at_time noon) newCoasterHandlers
           (request "get" "/coasters" "" [] (Invalid "unexpected end of JSON input")));
    discriminate.
Defined.

(** X2: no request to [/coasters] removes a coaster.  Every identifier in
    the store before the request is in it afterwards, the size grows by at
    most one, and a request other than a [POST] leaves the store as it
    was. *)
Theorem coasters_never_removes rt h w r h' w' :
  coasters rt h w r = Some (h', w') ->
  (forall k, is_Some (store h !! k) -> is_Some (store h' !! k)) /\
  (size (store h) <= size (store h') <= S (size (store h)))%nat /\
  (Method r <> "POST" -> h' = h).
Proof.
  intros Hstep. split; [|split].
  - intros k Hk. destruct (coasters_store _ _ _ _ _ _ Hstep) as [->|Hst]; [assumption|].
    rewrite Hst. destruct (decide (newID rt = k)) as [<-|Hne].
    + rewrite lookup_insert_eq. eauto.
    + now rewrite lookup_insert_ne.
  - destruct (coasters_store _ _ _ _ _ _ Hstep) as [->|Hst]; [lia|].
    rewrite Hst. destruct (store h !! newID rt) eqn:Hid.
    + rewrite map_size_insert_Some by eauto. lia.
    + rewrite map_size_insert_None by assumption. lia.
  - intros Hmethod. unfold coasters in Hstep.
    destruct (String.eqb (Method r) "GET").
    + destruct (get rt h w r); simpl in Hstep; [|discriminate]. congruence.
    + destruct (String.eqb_spec (Method r) "POST"); [contradiction|]. congruence.
Qed.

Lemma coasters_never_removes_witness :
  (forall k, is_Some (store newCoasterHandlers !! k) ->
     is_Some (store (fst (post (at_time noon) newCoasterHandlers fresh
                (post_request json_header (Document taron)))) !! k)) /\
  (size (store newCoasterHandlers)
   <= size (store (fst (post (at_time noon) newCoasterHandlers fresh
                (post_request json_header (Document taron)))))
   <= S (size (store newCoasterHandlers)))%nat /\
  (Method (post_request json_header (Document taron)) <> "POST" ->
   fst (post (at_time noon) newCoasterHandlers fresh
          (post_request json_header (Document taron))) = newCoasterHandlers).
Proof.
  apply (coasters_never_removes (at_time noon) newCoasterHandlers fresh
           (post_request json_header (Document taron))
           (fst (post (at_time noon) newCoasterHandlers fresh
                   (post_request json_header (Document taron))))
           (snd (post (at_time noon) newCoasterHandlers fresh
                   (post_request json_header (Document taron))))).
  reflexivity.
Defined.

(** ** More on [post] *)

(** X3: the response of [post] is made of what its three checks find wrong,
    in the order read error, media type, decoding.  The status is that of
    the first failing check (200 when none fails), the body is the texts of
    all failing checks one after the other, and no header is ever set; in
    particular the body is never a JSON document. *)
Theorem post_response rt h r :
  response_status (snd (post rt h fresh r)) =
    match post_errors r with
    | [] => StatusOK
    | (code, _) :: _ => code
    end /\
  response_body (snd (post rt h fresh r)) = map snd (post_errors r) /\
  response_header (snd (post rt h fresh r)) = [].
Proof.
  unfold post, post_errors.
  destruct (BodyErr r) as [e1|];
    destruct (String.eqb (Get (ReqHeader r) "content-type") "application/json");
    destruct (Unmarshal (Body r) zero_coaster) as [c [e3|]];
    repeat split.
Qed.

(** X4: whatever the request and whatever was written before, [post]
    inserts exactly one record, under the identifier of this run, with that
    identifier as its [id]; every other key keeps its record.  A record
    already stored under the identifier is replaced (the size stays), and
    otherwise the store grows by one. *)
Theorem post_inserts_one rt h w r :
  store (fst (post rt h w r)) !! newID rt = Some (created rt r) /\
  ID (created rt r) = newID rt /\
  (forall k, k <> newID rt -> store (fst (post rt h w r)) !! k = store h !! k) /\
  (is_Some (store h !! newID rt) ->
   size (store (fst (post rt h w r))) = size (store h)) /\
  (store h !! newID rt = None ->
   size (store (fst (post rt h w r))) = S (size (store h))).
Proof.
  rewrite post_store. split; [apply lookup_insert_eq|]. split; [reflexivity|].
  split; [|split].
  - intros k Hk. now rewrite lookup_insert_ne.
  - apply map_size_insert_Some.
  - apply map_size_insert_None.
Qed.

(** ** The listing [get] *)

Lemma range_length rt h : rearranges rt -> length (range rt h) = size (store h).
Proof.
  intros Hrt. unfold range. rewrite (Hrt _). apply length_map_to_list.
Qed.

(** The loop of [get] fills its slice with the records the range yields. *)
Lemma get_cases rt h w r :
  rearranges rt ->
  get rt h w r =
    Some (w |> HeaderAdd "content-type" "application/json"
            |> WriteHeader StatusOK
            |> Write (JsonText (JArray (map encode (map snd (range rt h)))))).
Proof.
  intros Hrt. unfold get.
  rewrite <- (range_length rt h Hrt), <- (length_map snd (range rt h)).
  rewrite collect_all. reflexivity.
Qed.

(** X5: [GET /coasters] never panics and answers 200 with content type
    [application/json] and one JSON array; its elements are the stored
    coasters, each exactly once, in the order the range walked the map, so
    there are as many as the store has entries, and none for the empty
    store. *)
Theorem get_lists_the_store rt h r :
  rearranges rt ->
  exists w' cs,
    get rt h fresh r = Some w' /\
    response_status w' = StatusOK /\
    Get (response_header w') "Content-Type" = "application/json" /\
    response_body w' = listing cs /\
    cs ≡ₚ map snd (map_to_list (store h)) /\
    length cs = size (store h) /\
    (store h = ∅ -> cs = []).
Proof.
  intros Hrt. eexists. exists (map snd (range rt h)).
  split; [apply (get_cases rt h fresh r Hrt)|].
  split; [reflexivity|]. split; [reflexivity|]. split; [reflexivity|].
  assert (Hperm : map snd (range rt h) ≡ₚ map snd (map_to_list (store h)))
    by (unfold range; now rewrite (Hrt _)).
  split; [exact Hperm|]. split.
  - rewrite length_map. now apply range_length.
  - intros Hempty. rewrite Hempty, map_to_list_empty in Hperm.
    now apply Permutation_nil_r in Hperm.
Qed.

Lemma get_lists_the_store_witness :
  exists w' cs,
    get (at_time (noon + 5))
      (posts newCoasterHandlers [(at_time noon, post_request json_header (Document taron))])
      fresh (get_request "/coasters" "") = Some w' /\
    response_status w' = StatusOK /\
    Get (response_header w') "Content-Type" = "application/json" /\
    response_body w' = listing cs /\
    cs ≡ₚ map snd (map_to_list (store
            (posts newCoasterHandlers
               [(at_time noon, post_request json_header (Document taron))]))) /\
    length cs = size (store
            (posts newCoasterHandlers
               [(at_time noon, post_request json_header (Document taron))])) /\
    (store (posts newCoasterHandlers
              [(at_time noon, post_request json_header (Document taron))]) = ∅ ->
     cs = []).
Proof.
  apply (get_lists_the_store (at_time (noon + 5))
           (posts newCoasterHandlers
              [(at_time noon, post_request json_header (Document taron))])
           (get_request "/coasters" "")).
  intros entries. reflexivity.
Defined.

(** X6: a creation shows in the next listing.  After any [post], whatever
    it answered, [GET /coasters] lists the record that [post] created. *)
Theorem get_after_post rt h w r rt' r' :
  rearranges rt' ->
  exists w' cs,
    get rt' (fst (post rt h w r)) fresh r' = Some w' /\
    response_body w' = listing cs /\
    created rt r ∈ cs.
Proof.
  intros Hrt. eexists. exists (map snd (range rt' (fst (post rt h w r)))).
  split; [apply (get_cases _ _ fresh r' Hrt)|]. split; [reflexivity|].
  apply list_elem_of_fmap. exists (newID rt, created rt r). split; [reflexivity|].
  unfold range. rewrite (Hrt _). apply elem_of_map_to_list.
  rewrite post_store. apply lookup_insert_eq.
Qed.

Lemma get_after_post_witness :
  exists w' cs,
    get (at_time (noon + 5))
      (fst (post (at_time noon) newCoasterHandlers fresh
              (post_request [("Content-Type", "text/plain")] (Document helix))))
      fresh (get_request "/coasters" "") = Some w' /\
    response_body w' = listing cs /\
    created (at_time noon)
      (post_request [("Content-Type", "text/plain")] (Document helix)) ∈ cs.
Proof.
  apply (get_after_post (at_time noon) newCoasterHandlers fresh
           (post_request [("Content-Type", "text/plain")] (Document helix))
           (at_time (noon + 5)) (get_request "/coasters" "")).
  intros entries. reflexivity.
Defined.

(** ** More on [getCoaster] *)

(** The number of pieces is one more than the number of separators. *)
Lemma Split_count s sep : length (Split s sep) = S (count_byte sep s).
Proof.
  induction s as [|a s IH]; simpl; [reflexivity|].
  destruct (Ascii.eqb a sep); simpl.
  - now rewrite IH.
  - pose proof (Split_nonempty s sep).
    destruct (Split s sep); [congruence|]. simpl in *. exact IH.
Qed.

(** X7: every coaster of a reachable store can be fetched under its key.
    A request for [/coasters/{key}], whatever its method, header, body and
    credentials, is answered 200 with content type [application/json] and
    the JSON of the stored record, whose [id] is the key. *)
Theorem getCoaster_serves_stored rt h k c r :
  reachable h ->
  store h !! k = Some c ->
  URL_String (ReqURL r) = "/coasters/" +:+ k ->
  exists w',
    getCoaster rt h fresh r = Some w' /\
    response_status w' = StatusOK /\
    Get (response_header w') "Content-Type" = "application/json" /\
    response_body w' = [JsonText (encode c)] /\
    ID c = k.
Proof.
  intros Hreach Hc Hurl.
  destruct (reachable_created h Hreach k c Hc) as (rt0 & r0 & Hcreated & Hk).
  eexists. split.
  - apply (getCoaster_found rt h fresh r k c Hurl); [| |exact Hc].
    + rewrite Hk. now apply FormatInt_no_byte.
    + rewrite Hk. apply FormatInt_not_random.
  - split; [reflexivity|]. split; [reflexivity|]. split; [reflexivity|].
    now rewrite Hcreated, Hk.
Qed.

Lemma getCoaster_serves_stored_witness :
  exists w',
    getCoaster (at_time (noon + 5))
      (posts newCoasterHandlers [(at_time noon, post_request json_header (Document helix))])
      fresh (request "DELETE" "/coasters/1600000000000000000" "" []
               (Invalid "unexpected end of JSON input")) = Some w' /\
    response_status w' = StatusOK /\
    Get (response_header w') "Content-Type" = "application/json" /\
    response_body w' =
      [JsonText (encode {| Name := "Helix"; Manufactur := "Mack Rides";
                           ID := "1600000000000000000";
                           InPark := "Liseberg"; Height := 41 |})] /\
    "1600000000000000000" = "1600000000000000000".
Proof.
  apply (getCoaster_serves_stored (at_time (noon + 5))
           (posts newCoasterHandlers
              [(at_time noon, post_request json_header (Document helix))])
           "1600000000000000000"
           {| Name := "Helix"; Manufactur := "Mack Rides";
              ID := "1600000000000000000"; InPark := "Liseberg"; Height := 41 |}
           (request "DELETE" "/coasters/1600000000000000000" "" []
              (Invalid "unexpected end of JSON input"))).
  - apply posts_reachable, reachable_new.
  - vm_compute. reflexivity.
  - reflexivity.
Defined.

(** X8: a request for [/coasters/{id}] with an identifier that has no
    slash, is not [random] and is not a key of the store (the empty
    identifier of [/coasters/] included) is answered 404 with a text that
    names the identifier. *)
Theorem getCoaster_unknown_id rt h id r :
  URL_String (ReqURL r) = "/coasters/" +:+ id ->
  occurs "/" id = false ->
  id <> "random" ->
  store h !! id = None ->
  exists w',
    getCoaster rt h fresh r = Some w' /\
    response_status w' = StatusNotFound /\
    response_body w' = [Text ("No content found for ID, '" +:+ id +:+ "'")].
Proof.
  intros Hurl Hslash Hrandom Hmiss. eexists. split.
  - apply (getCoaster_missing rt h fresh r id Hurl Hslash Hrandom Hmiss).
  - split; reflexivity.
Qed.

Lemma getCoaster_unknown_id_witness :
  exists w',
    getCoaster (at_time noon) newCoasterHandlers fresh (get_request "/coasters/" "")
      = Some w' /\
    response_status w' = StatusNotFound /\
    response_body w' = [Text ("No content found for ID, '" +:+ "" +:+ "'")].
Proof.
  apply (getCoaster_unknown_id (at_time noon) newCoasterHandlers ""
           (get_request "/coasters/" ""));
    [reflexivity|reflexivity|discriminate|reflexivity].
Defined.

(** X9: a URL that does not have exactly two slashes is answered 404 with
    the text [The url that you request is not found], before any lookup:
    this is so for every store, and for a deeper path such as
    [/coasters/1/2] as for a query string with a slash in it. *)
Theorem getCoaster_wrong_shape rt h r :
  count_byte "/" (URL_String (ReqURL r)) <> 2%nat ->
  exists w',
    getCoaster rt h fresh r = Some w' /\
    response_status w' = StatusNotFound /\
    response_body w' = [Text "The url that you request is not found"].
Proof.
  intros Hcount. unfold getCoaster.
  destruct (Z.eqb_spec (len (Split (URL_String (ReqURL r)) "/")) 3) as [H3|_].
  - unfold len in H3. rewrite Split_count in H3. lia.
  - eexists. split; [reflexivity|]. split; reflexivity.
Qed.

Lemma getCoaster_wrong_shape_witness :
  exists w',
    getCoaster (at_time (noon + 5))
      (posts newCoasterHandlers [(at_time noon, post_request json_header (Document helix))])
      fresh (get_request "/coasters/1600000000000000000/" "") = Some w' /\
    response_status w' = StatusNotFound /\
    response_body w' = [Text "The url that you request is not found"].
Proof.
  apply (getCoaster_wrong_shape (at_time (noon + 5))
           (posts newCoasterHandlers
              [(at_time noon, post_request json_header (Document helix))])
           (get_request "/coasters/1600000000000000000/" "")).
  vm_compute. lia.
Defined.

(** ** More on the random redirect *)

(** X10: with two or more coasters, every identifier the range yields
    before the last one is selected by some value of the random source: the
    one at position [i] by the value [i].  (With C2: the identifiers that
    can be selected are exactly those before the last.) *)
Theorem random_selects_before_last order h r t i k :
  (forall entries, order entries ≡ₚ entries) ->
  ids_of (mkRuntime t order (Z.of_nat i)) h !! i = Some k ->
  (S i < length (ids_of (mkRuntime t order (Z.of_nat i)) h))%nat ->
  getRandomCoaster (mkRuntime t order (Z.of_nat i)) h fresh r
    = Some (redirect k fresh).
Proof.
  intros Horder Hk Hi.
  rewrite (getRandomCoaster_cases (mkRuntime t order (Z.of_nat i)) Horder h fresh r).
  destruct (ids_of (mkRuntime t order (Z.of_nat i)) h) as [|k1 [|k2 ids]] eqn:Hids;
    [simpl in Hi; lia..|].
  cbv beta iota zeta. simpl randSource.
  replace (Z.to_nat (Z.of_nat i mod (len (k1 :: k2 :: ids) - 1))) with i.
  - rewrite Hk. reflexivity.
  - unfold len. simpl length in *. rewrite Z.mod_small by lia. lia.
Qed.

Lemma random_selects_before_last_witness :
  getRandomCoaster (mkRuntime noon the_range (Z.of_nat 0))
    (posts newCoasterHandlers
       [(at_time noon, post_request json_header (Document taron));
        (at_time (noon + 1), post_request json_header (Document helix))])
    fresh (get_request "/coasters/random" "")
  = Some (redirect "1600000000000000001" fresh).
Proof.
  apply (random_selects_before_last the_range
           (posts newCoasterHandlers
              [(at_time noon, post_request json_header (Document taron));
               (at_time (noon + 1), post_request json_header (Document helix))])
           (get_request "/coasters/random" "") noon 0%nat "1600000000000000001").
  - intros entries. reflexivity.
  - vm_compute. reflexivity.
  - vm_compute. lia.
Defined.

(** With a coaster in the store the redirect selects one of the identifiers
    the range yields. *)
Lemma random_target rt h w r :
  rearranges rt ->
  store h <> ∅ ->
  exists k, k ∈ ids_of rt h /\ getRandomCoaster rt h w r = Some (redirect k w).
Proof.
  intros Hrt Hne. rewrite (getRandomCoaster_cases rt Hrt h w r).
  pose proof (ids_of_length rt Hrt h) as Hlen.
  assert (Hsize : size (store h) <> 0%nat) by (now rewrite map_size_empty_iff).
  destruct (ids_of rt h) as [|k [|k' ids]] eqn:Hids; [simpl in Hlen; congruence| |].
  - exists k. split; [left|reflexivity].
  - cbv beta iota zeta.
    set (i := Z.to_nat (randSource rt mod (len (k :: k' :: ids) - 1))).
    assert (Hi : (i < length (k :: k' :: ids))%nat).
    { subst i. unfold len. simpl length.
      pose proof (Z.mod_pos_bound (randSource rt) (Z.of_nat (S (S (length ids))) - 1)).
      lia. }
    destruct (lookup_lt_is_Some_2 _ _ Hi) as [target Htarget].
    exists target. split; [apply list_elem_of_lookup; eauto|].
    rewrite Htarget. reflexivity.
Qed.

(** X11: the redirect can be followed.  In a reachable store that is not
    empty, [GET /coasters/random] answers with a [Location] that a request
    to [getCoaster] for that very URL answers 200, with the JSON of a stored
    coaster. *)
Theorem random_redirect_can_be_followed rt h r :
  rearranges rt ->
  reachable h ->
  store h <> ∅ ->
  URL_String (ReqURL r) = "/coasters/random" ->
  exists w1 c,
    getCoaster rt h fresh r = Some w1 /\
    store h !! ID c = Some c /\
    forall rt' r',
      URL_String (ReqURL r') = Get (response_header w1) "Location" ->
      exists w2,
        getCoaster rt' h fresh r' = Some w2 /\
        response_status w2 = StatusOK /\
        response_body w2 = [JsonText (encode c)].
Proof.
  intros Hrt Hreach Hne Hurl.
  destruct (random_target rt h fresh r Hrt Hne) as (k & Hin & Hsel).
  apply (ids_of_stored rt Hrt h k) in Hin as [c Hc].
  destruct (reachable_created h Hreach k c Hc) as (rt0 & r0 & Hcreated & Hk).
  assert (Hid : ID c = k) by (now rewrite Hcreated, Hk).
  exists (redirect k fresh), c.
  split; [now rewrite (getCoaster_random rt h fresh r Hurl)|].
  split; [now rewrite Hid|].
  intros rt' r' Hurl'. eexists. split.
  - apply (getCoaster_found rt' h fresh r' k c); [exact Hurl'| | |exact Hc].
    + rewrite Hk. now apply FormatInt_no_byte.
    + rewrite Hk. apply FormatInt_not_random.
  - split; reflexivity.
Qed.

Lemma random_redirect_can_be_followed_witness :
  exists w1 c,
    getCoaster (at_time (noon + 5))
      (posts newCoasterHandlers [(at_time noon, post_request json_header (Document helix))])
      fresh (get_request "/coasters/random" "") = Some w1 /\
    store (posts newCoasterHandlers
             [(at_time noon, post_request json_header (Document helix))]) !! ID c
      = Some c /\
    forall rt' r',
      URL_String (ReqURL r') = Get (response_header w1) "Location" ->
      exists w2,
        getCoaster rt'
          (posts newCoasterHandlers
             [(at_time noon, post_request json_header (Document helix))])
          fresh r' = Some w2 /\
        response_status w2 = StatusOK /\
        response_body w2 = [JsonText (encode c)].
Proof.
  apply (random_redirect_can_be_followed (at_time (noon + 5))
           (posts newCoasterHandlers
              [(at_time noon, post_request json_header (Document helix))])
           (get_request "/coasters/random" "")).
  - intros entries. reflexivity.
  - apply posts_reachable, reachable_new.
  - intros Hempty.
    apply (f_equal (fun m => m !! "1600000000000000000")) in Hempty.
    vm_compute in Hempty. discriminate.
  - reflexivity.
Defined.

(** ** The admin portal and its secret *)

(** X12: [newAdminPortal] panics exactly when [ADMIN_PASSWORD] is empty,
    and otherwise keeps its value as the password.  So the secret of a
    running portal is never empty: [admin] with the value of
    [ADMIN_PASSWORD] is let in, and [admin] with an empty password is
    always turned away. *)
Theorem newAdminPortal_secret env :
  (newAdminPortal env = None <-> env = "") /\
  forall a, newAdminPortal env = Some a ->
    password a = env /\
    (forall r, Credentials r = Some ("admin", env) ->
       response_status (handler a fresh r) = StatusOK) /\
    (forall r, Credentials r = Some ("admin", "") ->
       response_status (handler a fresh r) = StatusUnauthorized).
Proof.
  unfold newAdminPortal. destruct (String.eqb_spec env "") as [->|Hne].
  - split; [split; reflexivity|]. discriminate.
  - split; [split; [discriminate|contradiction]|].
    intros a [= <-]. split; [reflexivity|]. split; intros r Hcred.
    + unfold handler, BasicAuth. rewrite Hcred. simpl.
      rewrite String.eqb_refl. reflexivity.
    + unfold handler, BasicAuth. rewrite Hcred. simpl.
      destruct env; [contradiction|reflexivity].
Qed.

(** ** The JSON of a coaster, read back *)

(** Decoding the JSON of a coaster gives the coaster back. *)
Lemma Unmarshal_encode c c0 :
  fits_int (Height c) = true ->
  Unmarshal (Document (encode c)) c0 = (c, None).
Proof.
  intros Hfits. destruct c as [name manufactur id inPark height].
  simpl in Hfits. unfold Unmarshal, decode, encode. simpl.
  rewrite Hfits. reflexivity.
Qed.



(** Decoding never leaves a height that is not an [int] of 64 bits. *)
Lemma store_field_fits f v d :
  fits_int (Height (fst d)) = true ->
  fits_int (Height (fst (store_field f v d))) = true.
Proof.
  intros Hd. unfold store_field, saveError.
  destruct v as [|b|[z|lit]|s|items|members], f; simpl;
    try destruct (fits_int z) eqn:Hz; destruct (snd d); simpl; assumption.
Qed.

Lemma decode_members_fits members : forall d,
  fits_int (Height (fst d)) = true ->
  fits_int (Height (fst (decode_members members d))) = true.
Proof.
  induction members as [|[key v] members IH]; intros d Hd; simpl; [assumption|].
  destruct (find_field key); apply IH; [now apply store_field_fits|assumption].
Qed.

Lemma created_fits rt r : fits_int (Height (created rt r)) = true.
Proof.
  unfold created. simpl. destruct (Body r) as [msg|j]; simpl; [reflexivity|].
  destruct j; simpl; try reflexivity.
  now apply decode_members_fits.
Qed.

(** X14: a stored coaster can be posted back.  Every height in a reachable
    store is an [int] of 64 bits, and a POST with content type
    [application/json] whose body is the JSON the server writes for a stored
    coaster [c] is accepted without a word and stores a copy of [c] that
    differs from it in the [id] only. *)
Theorem stored_coaster_posted_back rt h k c r :
  reachable h ->
  store h !! k = Some c ->
  Get (ReqHeader r) "content-type" = "application/json" ->
  BodyErr r = None ->
  Body r = Document (encode c) ->
  fits_int (Height c) = true /\
  snd (post rt h fresh r) = fresh /\
  store (fst (post rt h fresh r)) !! newID rt = Some (set_ID (newID rt) c).
Proof.
  intros Hreach Hc Hct Hread Hbody.
  assert (Hfits : fits_int (Height c) = true).
  { destruct (reachable_created h Hreach k c Hc) as (rt0 & r0 & -> & _).
    apply created_fits. }
  assert (Hdec : Unmarshal (Body r) zero_coaster = (c, None))
    by (rewrite Hbody; now apply Unmarshal_encode).
  split; [exact Hfits|]. split.
  - apply (post_response_accepted rt h fresh r c Hct Hread Hdec).
  - rewrite post_store. unfold created. rewrite Hdec. apply lookup_insert_eq.
Qed.

Lemma stored_coaster_posted_back_witness :
  fits_int 41 = true /\
  snd (post (at_time (noon + 5))
         (posts newCoasterHandlers [(at_time noon, post_request json_header (Document helix))])
         fresh
         (post_request json_header
            (Document (encode {| Name := "Helix"; Manufactur := "Mack Rides";
                                 ID := "1600000000000000000";
                                 InPark := "Liseberg"; Height := 41 |}))))
    = fresh /\
  store (fst (post (at_time (noon + 5))
         (posts newCoasterHandlers [(at_time noon, post_request json_header (Document helix))])
         fresh
         (post_request json_header
            (Document (encode {| Name := "Helix"; Manufactur := "Mack Rides";
                                 ID := "1600000000000000000";
                                 InPark := "Liseberg"; Height := 41 |})))))
    !! newID (at_time (noon + 5))
    = Some (set_ID (newID (at_time (noon + 5)))
              {| Name := "Helix"; Manufactur := "Mack Rides";
                 ID := "1600000000000000000"; InPark := "Liseberg"; Height := 41 |}).
Proof.
  apply (stored_coaster_posted_back (at_time (noon + 5))
           (posts newCoasterHandlers
              [(at_time noon, post_request json_header (Document helix))])
           "1600000000000000000"
           {| Name := "Helix"; Manufactur := "Mack Rides";
              ID := "1600000000000000000"; InPark := "Liseberg"; Height := 41 |}).
  - apply posts_reachable, reachable_new.
  - vm_compute. reflexivity.
  - reflexivity.
  - reflexivity.
  - reflexivity.
Defined.

(** ** Runs of creations *)

(** A record stays under its identifier through creations at other
    readings. *)
Lemma posts_keeps run : forall h t c,
  t ∉ readings run ->
  store h !! FormatInt t = Some c ->
  store (posts h run) !! FormatInt t = Some c.
Proof.
  induction run as [|[rt r] run IH]; intros h t c Hfree Hc; simpl; [assumption|].
  apply IH.
  - intros Hin. apply Hfree. simpl. now right.
  - rewrite post_store, lookup_insert_ne; [assumption|].
    intros Heq. apply FormatInt_inj in Heq. apply Hfree. simpl. rewrite Heq. left.
Qed.

(** X15: after a run of creations the identifiers in the store are those
    that were in it before and the numerals of the clock readings of the
    run, no more and no fewer: the store holds one coaster for each reading
    that occurred. *)
Theorem posts_identifiers run : forall h,
  dom (store (posts h run)) =
  dom (store h) ∪ list_to_set (map FormatInt (readings run)).
Proof.
  induction run as [|[rt r] run IH]; intros h; simpl.
  - now rewrite (right_id_L ∅ (∪)).
  - rewrite IH, post_store, dom_insert_L. unfold newID.
    rewrite (comm_L (∪) {[FormatInt (UnixNano rt)]} (dom (store h))).
    now rewrite (assoc_L (∪)).
Qed.

(** X16: of the creations of a run that read the same value of the clock,
    the last one is the one in the store: a creation after which the run
    has no other with the same reading is stored as it was created. *)
Theorem posts_last_creation_stays before rt r after : forall h,
  UnixNano rt ∉ readings after ->
  store (posts h (before ++ (rt, r) :: after)) !! newID rt = Some (created rt r).
Proof.
  induction before as [|[rt0 r0] before IH]; intros h Hlast; simpl.
  - apply posts_keeps; [exact Hlast|].
    rewrite post_store. apply lookup_insert_eq.
  - apply IH, Hlast.
Qed.

Lemma posts_last_creation_stays_witness :
  store (posts newCoasterHandlers
           ([(at_time noon, post_request json_header (Document taron))]
            ++ (at_time noon, post_request json_header (Document helix))
            :: [(at_time (noon + 1), post_request json_header (Document tall))]))
    !! newID (at_time noon)
  = Some (created (at_time noon) (post_request json_header (Document helix))).
Proof.
  apply (posts_last_creation_stays
           [(at_time noon, post_request json_header (Document taron))]
           (at_time noon) (post_request json_header (Document helix))
           [(at_time (noon + 1), post_request json_header (Document tall))]
           newCoasterHandlers).
  intros Hin. apply list_elem_of_In in Hin. vm_compute in Hin.
  destruct Hin as [Heq|[]]. discriminate.
Defined.

Lemma posts_app run1 run2 : forall h,
  posts h (run1 ++ run2) = posts (posts h run1) run2.
Proof.
  induction run1 as [|[rt r] run1 IH]; intros h; simpl; [reflexivity|apply IH].
Qed.

Lemma store_inj h1 h2 : store h1 = store h2 -> h1 = h2.
Proof. destruct h1, h2; simpl. now intros ->. Qed.

(** X17: the stores a server can reach are exactly the results of runs of
    creations from the empty store: listings, lookups, redirects and
    rejected methods leave no trace, and the writer a [post] is handed has
    no influence on what it stores. *)
Theorem reachable_iff_posts h :
  reachable h <-> exists run, h = posts newCoasterHandlers run.
Proof.
  split.
  - induction 1 as [|rt h w r h' w' Hreach [run ->] Hstep].
    + exists []. reflexivity.
    + destruct (coasters_store _ _ _ _ _ _ Hstep) as [->|Hst]; [eauto|].
      exists (run ++ [(rt, r)]). rewrite posts_app. simpl.
      apply store_inj. rewrite Hst. symmetry. apply post_store.
  - intros [run ->]. apply posts_reachable, reachable_new.
Qed.
